(** * Snowflake identifier generator (package [snowflake])

    A shallow embedding of [snowflake/snowflake.go]: the layout constants,
    the constructor [New], the generator step [NextID] with its clock
    sampling, rollback handling and sequence rollover, and the decoder
    [GetDeviceID].

    Go's [int64] is modelled as [Z] with the two's-complement wrap-around
    written out ([Int64.wrap]).  The effects of [NextID] (reading the
    clock, sleeping, mutating the receiver, panicking) are threaded through
    a small state-and-failure monad over a [World]. *)

From Stdlib Require Import ZArith List String Ascii Bool Lia DecimalString.
Import ListNotations.
Local Open Scope Z_scope.

(** ** Signed 64-bit arithmetic *)

Module Int64.

Definition min_int : Z := - 2 ^ 63.
Definition max_int : Z := 2 ^ 63 - 1.

Definition in_range (z : Z) : Prop := min_int <= z <= max_int.

Definition in_rangeb (z : Z) : bool := (min_int <=? z) && (z <=? max_int).

(** Reduction of an unbounded integer to its 64-bit two's-complement value. *)
Definition wrap (z : Z) : Z := (z + 2 ^ 63) mod 2 ^ 64 - 2 ^ 63.

Definition add (a b : Z) : Z := wrap (a + b).
Definition sub (a b : Z) : Z := wrap (a - b).
Definition mul (a b : Z) : Z := wrap (a * b).

(** [a << n]: bits shifted out at the top are lost. *)
Definition shl (a n : Z) : Z := wrap (Z.shiftl a n).

(** [a >> n] on a signed operand is an arithmetic shift. *)
Definition shr (a n : Z) : Z := Z.shiftr a n.

(** [a / b] truncates toward zero. *)
Definition quot (a b : Z) : Z := wrap (Z.quot a b).

End Int64.

(** ** The part of Go's package [time] that the generator uses

    A [Time] carries a wall-clock reading (nanoseconds since the Unix epoch)
    and, when it comes from [time.Now], a monotonic reading.  [Sub] prefers
    the monotonic readings when both operands have one and saturates at the
    ends of [Duration]; [Add] moves both readings. *)

Module time.

Definition Duration : Type := Z.

Definition Nanosecond : Duration := 1.
Definition Millisecond : Duration := 1000000.
Definition Second : Duration := 1000000000.

Record Time : Type := mkTime {
  wall : Z;
  mono : option Z
}.

Definition saturate (d : Z) : Duration :=
  Z.max Int64.min_int (Z.min Int64.max_int d).

Definition Unix (sec nsec : Z) : Time :=
  {| wall := sec * Second + nsec; mono := None |}.

Definition Sub (t u : Time) : Duration :=
  match mono t, mono u with
  | Some a, Some b => saturate (a - b)
  | _, _ => saturate (wall t - wall u)
  end.

Definition Add (t : Time) (d : Duration) : Time :=
  {| wall := wall t + d;
     mono := match mono t with
             | Some m => if Int64.in_rangeb (m + d) then Some (m + d) else None
             | None => None
             end |}.

(** [time.Since t], with [now] the reading [time.Now] gives at the call. *)
Definition Since (now t : Time) : Duration := Sub now t.

Definition Nanoseconds (d : Duration) : Z := d.

End time.

(** ** [fmt.Errorf] with one [%d] verb *)

Definition decimal (n : Z) : string := NilZero.string_of_int (Z.to_int n).

Fixpoint Errorf (format : string) (arg : Z) : string :=
  match format with
  | EmptyString => EmptyString
  | String "%"%char (String "d"%char rest) => (decimal arg ++ rest)%string
  | String c rest => String c (Errorf rest arg)
  end.

(** ** Layout constants *)

Definition EPOCH : Z := 1577808000000.

Definition BIT_TIMESTAMP : Z := 41.
Definition BIT_DATACENTER : Z := 5.
Definition BIT_WORKER : Z := 5.
Definition BIT_SEQUENCE : Z := 12.

Definition MAX_TIMESTAMP : Z := Z.lxor (-1) (Z.shiftl (-1) BIT_TIMESTAMP).
Definition MAX_DATACENTER_ID : Z := Z.lxor (-1) (Z.shiftl (-1) BIT_DATACENTER).
Definition MAX_WORKER_ID : Z := Z.lxor (-1) (Z.shiftl (-1) BIT_WORKER).
Definition MAX_SEQUENCE_ID : Z := Z.lxor (-1) (Z.shiftl (-1) BIT_SEQUENCE).
Definition MAX_BACKWARD_MS : Z := 3.

Definition SHIFT_TIMESTAMP : Z := BIT_SEQUENCE + BIT_WORKER + BIT_DATACENTER.
Definition SHIFT_DATACENTER : Z := BIT_SEQUENCE + BIT_WORKER.
Definition SHIFT_WORKER : Z := BIT_SEQUENCE.

(** ** Generator state

    The embedded [sync.Mutex] has no field here: a call of [NextID] holds
    it from entry to exit, and the model runs one call at a time. *)

Record SnowFlake : Type := mkSnowFlake {
  epoch : time.Time;
  timestamp : Z;
  datacenterId : Z;
  workerId : Z;
  sequence : Z
}.

Definition error : Type := string.

(** ** Construction

    [now] is the reading of [time.Now()] taken inside [New].  The result is
    the pair (generator pointer, error) with [None] for [nil]. *)

Definition New (datacenterId machineId : Z) (now : time.Time)
  : option SnowFlake * option error :=
  if (datacenterId <? 0) || (datacenterId >? MAX_DATACENTER_ID) then
    (None, Some (Errorf "datacenterId must be between 0 and %d" (Int64.sub MAX_DATACENTER_ID 1)))
  else if (machineId <? 0) || (machineId >? MAX_WORKER_ID) then
    (None, Some (Errorf "machineId must be between 0 and %d" (Int64.sub MAX_WORKER_ID 1)))
  else
    let epoch :=
      time.Add now
        (time.Sub (time.Unix (Int64.quot EPOCH 1000)
                             (Int64.mul (Z.rem EPOCH 1000) 1000000))
                  now) in
    (Some {| epoch := epoch;
             timestamp := 0;
             datacenterId := datacenterId;
             workerId := machineId;
             sequence := 0 |},
     None).

(** ** Effects of a call

    A [World] holds the receiver [*SnowFlake], the readings the clock will
    give to the coming calls of [time.Now] (in order), and the durations
    passed to [time.Sleep] so far.  A computation ends normally ([Done]),
    with a panic ([Panic], carrying the world at that moment), or finds the
    supply of readings used up ([Starved]): the last one stands for a call
    that is still waiting for the clock. *)

Record World : Type := mkWorld {
  gen : SnowFlake;
  clock : list time.Time;
  slept : list time.Duration
}.

Inductive Result (A : Type) : Type :=
| Done (a : A) (w : World)
| Panic (e : error) (w : World)
| Starved (w : World).

Arguments Done {A} a w.
Arguments Panic {A} e w.
Arguments Starved {A} w.

Definition M (A : Type) : Type := World -> Result A.

Definition ret {A : Type} (a : A) : M A := fun w => Done a w.

Definition bind {A B : Type} (m : M A) (k : A -> M B) : M B :=
  fun w =>
    match m w with
    | Done a w' => k a w'
    | Panic e w' => Panic e w'
    | Starved w' => Starved w'
    end.

Declare Scope go_scope.
Delimit Scope go_scope with go.
Notation "x <- m ;; k" := (bind m (fun x => k))
  (at level 61, m at next level, right associativity) : go_scope.
Notation "m ;; k" := (bind m (fun _ => k))
  (at level 61, right associativity) : go_scope.
Local Open Scope go_scope.

Definition panic {A : Type} (e : error) : M A := fun w => Panic e w.

Definition self : M SnowFlake := fun w => Done (gen w) w.

Definition with_sequence (s : SnowFlake) (v : Z) : SnowFlake :=
  {| epoch := epoch s;
     timestamp := timestamp s;
     datacenterId := datacenterId s;
     workerId := workerId s;
     sequence := v |}.

Definition with_timestamp (s : SnowFlake) (v : Z) : SnowFlake :=
  {| epoch := epoch s;
     timestamp := v;
     datacenterId := datacenterId s;
     workerId := workerId s;
     sequence := sequence s |}.

(** [s.sequence = v] *)
Definition set_sequence (v : Z) : M unit :=
  fun w =>
    Done tt {| gen := with_sequence (gen w) v; clock := clock w; slept := slept w |}.

(** [s.timestamp = v] *)
Definition set_timestamp (v : Z) : M unit :=
  fun w =>
    Done tt {| gen := with_timestamp (gen w) v; clock := clock w; slept := slept w |}.

Definition Sleep (d : time.Duration) : M unit :=
  fun w => Done tt {| gen := gen w; clock := clock w; slept := slept w ++ [d] |}.

(** ** Current-time sampling *)

(** The value [GetNow] computes from one clock reading. *)
Definition millis (s : SnowFlake) (now : time.Time) : Z :=
  Int64.quot (time.Nanoseconds (time.Since now (epoch s))) 1000000.

Definition GetNow : M Z :=
  fun w =>
    match clock w with
    | [] => Starved w
    | t :: rest =>
        Done (millis (gen w) t)
             {| gen := gen w; clock := rest; slept := slept w |}
    end.

(** ** [NextID] *)

(** The loop [for now <= s.timestamp { now = s.GetNow() }]. *)
Fixpoint spin (s : SnowFlake) (now : Z) (readings : list time.Time)
  : option (Z * list time.Time) :=
  if now <=? timestamp s then
    match readings with
    | [] => None
    | t :: rest => spin s (millis s t) rest
    end
  else Some (now, readings).

Definition spin_wait (now : Z) : M Z :=
  fun w =>
    match spin (gen w) now (clock w) with
    | Some (now', rest) =>
        Done now' {| gen := gen w; clock := rest; slept := slept w |}
    | None => Starved {| gen := gen w; clock := []; slept := slept w |}
    end.

(** Lines 77-98: the clock-rollback check; yields the [now] to go on with. *)
Definition rollback_check (now : Z) : M Z :=
  s <- self ;;
  if now <? timestamp s then
    let offset := Int64.sub (timestamp s) now in
    r <- (if offset <=? MAX_BACKWARD_MS then
            Sleep (Int64.mul time.Millisecond (Int64.shl offset 1)) ;;
            now <- GetNow ;;
            s <- self ;;
            ret (now <? timestamp s, now)
          else
            ret (true, now)) ;;
    let '(isOverBackWard, now) := r in
    if isOverBackWard then
      s <- self ;;
      panic (Errorf "Clock moved backwards. Refusing to generate id for %d milliseconds"
                    (Int64.sub (timestamp s) now))
    else ret now
  else ret now.

(** Lines 101-112: the sequence counter; yields the [now] to go on with. *)
Definition sequence_step (now : Z) : M Z :=
  s <- self ;;
  if timestamp s =? now then
    set_sequence (Z.land (Int64.add (sequence s) 1) MAX_SEQUENCE_ID) ;;
    s <- self ;;
    if sequence s =? 0 then spin_wait now else ret now
  else
    set_sequence 0 ;;
    ret now.

(** Lines 120-124: the packed identifier. *)
Definition pack (s : SnowFlake) (now : Z) : Z :=
  Z.lor (Z.lor (Z.lor (Int64.shl (Int64.sub now EPOCH) SHIFT_TIMESTAMP)
                      (Int64.shl (datacenterId s) SHIFT_DATACENTER))
               (Int64.shl (workerId s) SHIFT_WORKER))
        (sequence s).

(** Lines 100-124: advance the counter, record the timestamp, pack. *)
Definition issue (now : Z) : M Z :=
  now <- sequence_step now ;;
  set_timestamp now ;;
  s <- self ;;
  ret (pack s now).

Definition NextID : M Z :=
  now <- GetNow ;;
  now <- rollback_check now ;;
  issue now.

(** ** Decoding *)

Definition GetDeviceID (sid : Z) : Z * Z :=
  let datacenterId := Z.land (Int64.shr sid SHIFT_DATACENTER) MAX_DATACENTER_ID in
  let machineId := Z.land (Int64.shr sid SHIFT_WORKER) MAX_WORKER_ID in
  (datacenterId, machineId).

(** ** Runs of one generator instance *)

(** The world a result leaves behind. *)
Definition world_of {A : Type} (r : Result A) : World :=
  match r with
  | Done _ w => w
  | Panic _ w => w
  | Starved w => w
  end.

(** One call on receiver [s] that sees the clock readings [readings]. *)
Definition call (s : SnowFlake) (readings : list time.Time) : Result Z :=
  NextID {| gen := s; clock := readings; slept := [] |}.

(** Successive calls on one instance; the k-th call sees the k-th list of
    readings.  A panicking call hands the receiver on as it left it; a call
    that never returns ends the run. *)
Fixpoint session (s : SnowFlake) (clocks : list (list time.Time))
  : list (Result Z) :=
  match clocks with
  | [] => []
  | c :: rest =>
      let r := call s c in
      r :: match r with
           | Starved _ => []
           | _ => session (gen (world_of r)) rest
           end
  end.

(** Generators obtained from [New dc wk] by calls of [NextID] that return. *)
Inductive Reachable (dc wk : Z) : SnowFlake -> Prop :=
| Reachable_New : forall now g,
    New dc wk now = (Some g, None) ->
    Reachable dc wk g
| Reachable_NextID : forall s w id w',
    Reachable dc wk s ->
    gen w = s ->
    NextID w = Done id w' ->
    Reachable dc wk (gen w').

(** A wall-clock instant with a monotonic reading, as [time.Now] gives. *)
Definition instant (wall_ns mono_ns : Z) : time.Time :=
  {| time.wall := wall_ns; time.mono := Some mono_ns |}.

(** ** The demo entry point ([main.go])

    [curTime] is the reading of [time.Now()] on the second line of [main],
    [later] the one [time.Since] takes.  The result is the line the builtin
    [println] writes: its operands separated by a blank, then a newline. *)

Definition newline : string := String (ascii_of_nat 10) EmptyString.

Definition main (curTime later : time.Time) : string :=
  let EPOCH := 1577808000000 in
  let epoch :=
    time.Add curTime
      (time.Sub (time.Unix (Int64.quot EPOCH 1000)
                           (Int64.mul (Z.rem EPOCH 1000) 1000000))
                curTime) in
  let now := Int64.quot (time.Nanoseconds (time.Since later epoch)) 1000000 in
  ("now" ++ " " ++ decimal now ++ newline)%string.

(** ** Notions used in the statements *)

(** A sample of the clock is a whole number of milliseconds that a
    [Duration] can hold. *)
Definition millis_bound : Z := 9223372036854.

(** The range of the fields of a generator built by [New] and advanced
    by [NextID]. *)
Record wf (s : SnowFlake) : Prop := mkWf {
  wf_datacenter : 0 <= datacenterId s <= 31;
  wf_worker : 0 <= workerId s <= 31;
  wf_sequence : 0 <= sequence s <= 4095;
  wf_timestamp : 0 <= timestamp s <= millis_bound
}.

(** The order in which identifiers are issued: the timestamp first, the
    sequence number within one millisecond. *)
Definition rank (s : SnowFlake) : Z := timestamp s * 4096 + sequence s.

(** The value [NextID] panics with. *)
Definition rollback_message (n : Z) : error :=
  Errorf "Clock moved backwards. Refusing to generate id for %d milliseconds" n.

(** ** Concrete clocks and generators used in the examples *)

(** [time.Now()] on 2026-10-31T00:00:00Z, five seconds after process start. *)
Definition boot : time.Time := instant (1793404800 * 1000000000) 5000000000.

(** The clock [ms] milliseconds after [boot]. *)
Definition tick (ms : Z) : time.Time :=
  instant (1793404800 * 1000000000 + ms * 1000000) (5000000000 + ms * 1000000).

(** The generator [New 3 7] builds at [boot]. *)
Definition node : SnowFlake :=
  {| epoch := {| time.wall := 1577808000000000000;
                 time.mono := Some (-215596795000000000) |};
     timestamp := 0;
     datacenterId := 3;
     workerId := 7;
     sequence := 0 |}.

(** [node] after a first identifier issued one millisecond after [boot]. *)
Definition node1 : SnowFlake := with_timestamp node 215596800001.

(** [node1] with the counter of its millisecond used up. *)
Definition node_full : SnowFlake := with_sequence node1 4095.

(** The clock at 2139-09-06T23:47:35.550Z, and [ms] milliseconds later. *)
Definition late_boot : time.Time := instant (5354639255550 * 1000000) 5000000000.

Definition late (ms : Z) : time.Time :=
  instant (5354639255550 * 1000000 + ms * 1000000) (5000000000 + ms * 1000000).

Definition late_node : SnowFlake :=
  {| epoch := {| time.wall := 1577808000000000000;
                 time.mono := Some (-3776831250550000000) |};
     timestamp := 0;
     datacenterId := 0;
     workerId := 0;
     sequence := 0 |}.

(** The packing as the specification words it: the sampled [now] itself is
    shifted into the timestamp field. *)
Definition spec_pack (s : SnowFlake) (now : Z) : Z :=
  Z.lor (Z.lor (Z.lor (Int64.shl now (BIT_SEQUENCE + BIT_WORKER + BIT_DATACENTER))
                      (Int64.shl (datacenterId s) (BIT_SEQUENCE + BIT_WORKER)))
               (Int64.shl (workerId s) BIT_SEQUENCE))
        (sequence s).

(** Bits 62..22 of an identifier. *)
Definition timestamp_field (sid : Z) : Z :=
  Z.land (Int64.shr sid SHIFT_TIMESTAMP) MAX_TIMESTAMP.

(** ** Proof tactics *)

Ltac conjs := repeat match goal with |- _ /\ _ => split end.

Ltac case_if :=
  match goal with
  | |- context [if ?c then _ else _] => destruct c eqn:?
  end.

(** ** Facts about the constants and the 64-bit operations *)

Lemma MAX_TIMESTAMP_eq : MAX_TIMESTAMP = 2 ^ 41 - 1.
Proof. reflexivity. Qed.

Lemma MAX_DATACENTER_ID_eq : MAX_DATACENTER_ID = 31.
Proof. reflexivity. Qed.

Lemma MAX_WORKER_ID_eq : MAX_WORKER_ID = 31.
Proof. reflexivity. Qed.

Lemma MAX_SEQUENCE_ID_eq : MAX_SEQUENCE_ID = 4095.
Proof. reflexivity. Qed.

Lemma layout_widths : BIT_TIMESTAMP + BIT_DATACENTER + BIT_WORKER + BIT_SEQUENCE = 63.
Proof. reflexivity. Qed.

Lemma wrap_small (z : Z) : Int64.in_range z -> Int64.wrap z = z.
Proof.
  unfold Int64.in_range, Int64.min_int, Int64.max_int, Int64.wrap; intros H.
  rewrite Z.mod_small; lia.
Qed.

Lemma wrap_range (z : Z) : Int64.in_range (Int64.wrap z).
Proof.
  unfold Int64.in_range, Int64.min_int, Int64.max_int, Int64.wrap.
  pose proof (Z.mod_pos_bound (z + 2 ^ 63) (2 ^ 64) ltac:(lia)); lia.
Qed.

(** [wrap] changes its argument by a multiple of [2^64]. *)
Lemma wrap_multiple (z : Z) : exists k, Int64.wrap z = z + k * 2 ^ 64.
Proof.
  unfold Int64.wrap.
  exists (- ((z + 2 ^ 63) / 2 ^ 64)).
  pose proof (Z.div_mod (z + 2 ^ 63) (2 ^ 64) ltac:(lia)); lia.
Qed.

Lemma saturate_range (d : Z) : Int64.in_range (time.saturate d).
Proof.
  unfold time.saturate, Int64.in_range, Int64.min_int, Int64.max_int; lia.
Qed.

Lemma millis_range (s : SnowFlake) (t : time.Time) :
  - millis_bound <= millis s t <= millis_bound.
Proof.
  unfold millis, time.Nanoseconds, time.Since, Int64.quot.
  assert (R : Int64.in_range (time.Sub t (epoch s))).
  { unfold time.Sub. destruct (time.mono t), (time.mono (epoch s)); apply saturate_range. }
  set (d := time.Sub t (epoch s)) in *.
  unfold Int64.in_range, Int64.min_int, Int64.max_int in R.
  assert (Q : - millis_bound <= Z.quot d 1000000 <= millis_bound).
  { unfold millis_bound. Z.to_euclidean_division_equations. lia. }
  rewrite wrap_small; [ exact Q | ].
  unfold Int64.in_range, Int64.min_int, Int64.max_int, millis_bound in *; lia.
Qed.

(** Bitwise or is addition when the right operand lies below the bits of
    the left one. *)
Lemma lor_high_low (h n l : Z) :
  0 <= n -> 0 <= l < 2 ^ n -> Z.lor (h * 2 ^ n) l = h * 2 ^ n + l.
Proof.
  intros Hn Hl.
  pose proof (Z.add_lor_land (h * 2 ^ n) l) as E.
  assert (Z.land (h * 2 ^ n) l = 0) as L; [ | lia ].
  apply Z.bits_inj'; intros i Hi.
  rewrite Z.land_spec, Z.bits_0.
  destruct (Z_lt_ge_dec i n) as [Hlt | Hge].
  - rewrite Z.mul_pow2_bits_low by lia. reflexivity.
  - replace l with (l mod 2 ^ n) by (apply Z.mod_small; lia).
    rewrite Z.mod_pow2_bits_high by lia.
    apply andb_false_r.
Qed.

(** ** The packed identifier *)

Lemma shl_small (a n : Z) :
  0 <= n -> Int64.in_range (a * 2 ^ n) -> Int64.shl a n = a * 2 ^ n.
Proof.
  intros Hn R. unfold Int64.shl.
  rewrite Z.shiftl_mul_pow2 by lia.
  now apply wrap_small.
Qed.

(** Whatever the shift loses at the top, its low 22 bits are zero. *)
Lemma shl_timestamp_multiple (a : Z) :
  exists h, Int64.shl a SHIFT_TIMESTAMP = h * 2 ^ 22.
Proof.
  unfold Int64.shl.
  destruct (wrap_multiple (Z.shiftl a SHIFT_TIMESTAMP)) as [k Hk].
  exists (a + k * 2 ^ 42).
  rewrite Hk, Z.shiftl_mul_pow2 by (unfold SHIFT_TIMESTAMP; simpl; lia).
  change SHIFT_TIMESTAMP with 22. lia.
Qed.

Lemma pack_split (s : SnowFlake) (now : Z) :
  0 <= datacenterId s <= 31 ->
  0 <= workerId s <= 31 ->
  0 <= sequence s <= 4095 ->
  pack s now =
    Int64.shl (Int64.sub now EPOCH) SHIFT_TIMESTAMP
    + datacenterId s * 2 ^ 17 + workerId s * 2 ^ 12 + sequence s.
Proof.
  intros Hd Hw Hs. unfold pack.
  destruct (shl_timestamp_multiple (Int64.sub now EPOCH)) as [h Hh].
  rewrite Hh.
  change SHIFT_DATACENTER with 17. change SHIFT_WORKER with 12.
  rewrite (shl_small (datacenterId s) 17)
    by (unfold Int64.in_range, Int64.min_int, Int64.max_int; lia).
  rewrite (shl_small (workerId s) 12)
    by (unfold Int64.in_range, Int64.min_int, Int64.max_int; lia).
  rewrite (lor_high_low h 22) by lia.
  replace (h * 2 ^ 22 + datacenterId s * 2 ^ 17)
    with ((h * 32 + datacenterId s) * 2 ^ 17) by lia.
  rewrite (lor_high_low _ 17) by lia.
  replace ((h * 32 + datacenterId s) * 2 ^ 17 + workerId s * 2 ^ 12)
    with (((h * 32 + datacenterId s) * 32 + workerId s) * 2 ^ 12) by lia.
  rewrite (lor_high_low _ 12) by lia.
  lia.
Qed.

(** While [now - EPOCH] fits the 41-bit field (sign included) nothing wraps. *)
Lemma pack_exact (s : SnowFlake) (now : Z) :
  0 <= datacenterId s <= 31 ->
  0 <= workerId s <= 31 ->
  0 <= sequence s <= 4095 ->
  - 2 ^ 41 <= now - EPOCH < 2 ^ 41 ->
  pack s now =
    (now - EPOCH) * 2 ^ 22
    + datacenterId s * 2 ^ 17 + workerId s * 2 ^ 12 + sequence s.
Proof.
  intros Hd Hw Hs Hn.
  rewrite pack_split by assumption.
  unfold Int64.sub.
  rewrite (wrap_small (now - EPOCH))
    by (unfold Int64.in_range, Int64.min_int, Int64.max_int; lia).
  change SHIFT_TIMESTAMP with 22.
  rewrite shl_small
    by (unfold Int64.in_range, Int64.min_int, Int64.max_int; lia).
  reflexivity.
Qed.

Lemma GetDeviceID_fields (h dc wk sq : Z) :
  0 <= dc <= 31 -> 0 <= wk <= 31 -> 0 <= sq <= 4095 ->
  GetDeviceID (h * 2 ^ 22 + dc * 2 ^ 17 + wk * 2 ^ 12 + sq) = (dc, wk).
Proof.
  intros Hd Hw Hs. unfold GetDeviceID, Int64.shr.
  change MAX_DATACENTER_ID with (Z.ones 5). change MAX_WORKER_ID with (Z.ones 5).
  change SHIFT_DATACENTER with 17. change SHIFT_WORKER with 12.
  rewrite !Z.land_ones, !Z.shiftr_div_pow2 by lia.
  f_equal.
  - change (2 ^ 5) with 32. change (2 ^ 17) with 131072.
    change (2 ^ 22) with 4194304. change (2 ^ 12) with 4096.
    Z.div_mod_to_equations. lia.
  - change (2 ^ 5) with 32. change (2 ^ 17) with 131072.
    change (2 ^ 22) with 4194304. change (2 ^ 12) with 4096.
    Z.div_mod_to_equations. lia.
Qed.

(** Bits 62..22 of a packed identifier hold [now - EPOCH] modulo [2^41]. *)
Lemma timestamp_field_pack (s : SnowFlake) (now : Z) :
  0 <= datacenterId s <= 31 ->
  0 <= workerId s <= 31 ->
  0 <= sequence s <= 4095 ->
  timestamp_field (pack s now) = (now - EPOCH) mod 2 ^ 41.
Proof.
  intros Hd Hw Hs. rewrite pack_split by assumption.
  unfold timestamp_field, Int64.shr, Int64.shl, Int64.sub.
  destruct (wrap_multiple (now - EPOCH)) as [k1 ->].
  destruct (wrap_multiple (Z.shiftl (now - EPOCH + k1 * 2 ^ 64) SHIFT_TIMESTAMP))
    as [k2 ->].
  change MAX_TIMESTAMP with (Z.ones 41). change SHIFT_TIMESTAMP with 22.
  rewrite Z.land_ones, Z.shiftr_div_pow2, Z.shiftl_mul_pow2 by lia.
  replace ((now - EPOCH + k1 * 2 ^ 64) * 2 ^ 22 + k2 * 2 ^ 64
           + datacenterId s * 2 ^ 17 + workerId s * 2 ^ 12 + sequence s)
    with ((now - EPOCH + (k1 * 2 ^ 23 + k2 * 2) * 2 ^ 41) * 2 ^ 22
          + (datacenterId s * 2 ^ 17 + workerId s * 2 ^ 12 + sequence s)) by lia.
  rewrite Z.div_add_l by lia.
  rewrite (Z.div_small (datacenterId s * 2 ^ 17 + workerId s * 2 ^ 12 + sequence s))
    by lia.
  rewrite Z.add_0_r.
  apply Z.mod_add. lia.
Qed.

(** ** The phases of [NextID], unfolded *)

Lemma world_eta (w : World) :
  {| gen := gen w; clock := clock w; slept := slept w |} = w.
Proof. destruct w; reflexivity. Qed.

Lemma rollback_check_eq (now : Z) (w : World) :
  rollback_check now w =
    let s := gen w in
    if now <? timestamp s then
      let offset := Int64.sub (timestamp s) now in
      if offset <=? MAX_BACKWARD_MS then
        let zzz := slept w ++ [Int64.mul time.Millisecond (Int64.shl offset 1)] in
        match clock w with
        | [] => Starved {| gen := s; clock := []; slept := zzz |}
        | t :: rest =>
            let w1 := {| gen := s; clock := rest; slept := zzz |} in
            if millis s t <? timestamp s
            then Panic (rollback_message (Int64.sub (timestamp s) (millis s t))) w1
            else Done (millis s t) w1
        end
      else Panic (rollback_message offset) w
    else Done now w.
Proof.
  unfold rollback_check, rollback_message, bind, self, Sleep, GetNow, ret, panic; cbn.
  case_if; [ | reflexivity ].
  case_if; [ | reflexivity ].
  cbn. destruct (clock w) as [ | t rest ]; [ reflexivity | ].
  cbn. case_if; reflexivity.
Qed.

Lemma sequence_step_eq (now : Z) (w : World) :
  sequence_step now w =
    let s := gen w in
    if timestamp s =? now then
      let s1 := with_sequence s (Z.land (Int64.add (sequence s) 1) MAX_SEQUENCE_ID) in
      if sequence s1 =? 0 then
        match spin s1 now (clock w) with
        | Some (now', rest) => Done now' {| gen := s1; clock := rest; slept := slept w |}
        | None => Starved {| gen := s1; clock := []; slept := slept w |}
        end
      else Done now {| gen := s1; clock := clock w; slept := slept w |}
    else Done now {| gen := with_sequence s 0; clock := clock w; slept := slept w |}.
Proof.
  unfold sequence_step, bind, self, set_sequence, spin_wait, ret; cbn.
  case_if; [ | reflexivity ].
  cbn. case_if; reflexivity.
Qed.

Lemma issue_eq (now : Z) (w1 : World) :
  issue now w1 =
    match sequence_step now w1 with
    | Done now' w2 =>
        let s' := with_timestamp (gen w2) now' in
        Done (pack s' now') {| gen := s'; clock := clock w2; slept := slept w2 |}
    | Panic e w2 => Panic e w2
    | Starved w2 => Starved w2
    end.
Proof.
  unfold issue, bind at 1.
  destruct (sequence_step now w1) as [ now' w2 | e w2 | w2 ]; reflexivity.
Qed.

Lemma NextID_eq (w : World) :
  NextID w =
    match clock w with
    | [] => Starved w
    | t :: rest =>
        match rollback_check (millis (gen w) t)
                {| gen := gen w; clock := rest; slept := slept w |} with
        | Done now w1 => issue now w1
        | Panic e w1 => Panic e w1
        | Starved w1 => Starved w1
        end
    end.
Proof.
  unfold NextID, bind at 1, GetNow.
  destruct (clock w) as [ | t rest ]; [ reflexivity | ].
  unfold bind at 1.
  destruct (rollback_check _ _) as [ now w1 | e w1 | w1 ]; reflexivity.
Qed.

(** ** The waiting loop *)

Lemma spin_passed (s : SnowFlake) (now : Z) (readings : list time.Time) :
  timestamp s < now -> spin s now readings = Some (now, readings).
Proof.
  intros H. destruct readings; cbn;
    destruct (Z.leb_spec now (timestamp s)); (lia || reflexivity).
Qed.

(** The loop drops the readings that have not passed [s.timestamp] and
    stops at the first one that has. *)
Lemma spin_skip (s : SnowFlake) (skipped : list time.Time) :
  forall now t rest,
    now <= timestamp s ->
    Forall (fun u => millis s u <= timestamp s) skipped ->
    timestamp s < millis s t ->
    spin s now (skipped ++ t :: rest) = Some (millis s t, rest).
Proof.
  induction skipped as [ | u skipped IH ]; intros now t rest Hnow Hall Ht; cbn.
  - destruct (Z.leb_spec now (timestamp s)); [ | lia ].
    now apply spin_passed.
  - destruct (Z.leb_spec now (timestamp s)); [ | lia ].
    inversion Hall; subst. now apply IH.
Qed.

Lemma spin_inv (s : SnowFlake) (readings : list time.Time) :
  forall now now' rest,
    now <= timestamp s ->
    spin s now readings = Some (now', rest) ->
    exists skipped t,
      readings = skipped ++ t :: rest
      /\ Forall (fun u => millis s u <= timestamp s) skipped
      /\ now' = millis s t
      /\ timestamp s < now'.
Proof.
  induction readings as [ | u readings IH ]; intros now now' rest Hnow H; cbn in H.
  - destruct (Z.leb_spec now (timestamp s)); [ discriminate | lia ].
  - destruct (Z.leb_spec now (timestamp s)); [ | lia ].
    destruct (Z_le_gt_dec (millis s u) (timestamp s)) as [Hu | Hu].
    + destruct (IH _ _ _ Hu H) as (skipped & t & -> & Hall & -> & Hlt).
      exists (u :: skipped), t. repeat split; auto.
    + rewrite spin_passed in H by lia. inversion H; subst.
      exists [], u. repeat split; auto; lia.
Qed.

(** Without a reading past [s.timestamp] the loop does not end. *)
Lemma spin_starved (s : SnowFlake) (readings : list time.Time) :
  forall now,
    now <= timestamp s ->
    Forall (fun u => millis s u <= timestamp s) readings ->
    spin s now readings = None.
Proof.
  induction readings as [ | u readings IH ]; intros now Hnow Hall; cbn;
    destruct (Z.leb_spec now (timestamp s)); try lia; [ reflexivity | ].
  inversion Hall; subst. now apply IH.
Qed.

(** ** What one call does to the receiver *)

(** The masked increment is the increment modulo 4096, whatever wraps. *)
Lemma sequence_increment (sq : Z) :
  Z.land (Int64.add sq 1) MAX_SEQUENCE_ID = (sq + 1) mod 4096.
Proof.
  change MAX_SEQUENCE_ID with (Z.ones 12).
  rewrite Z.land_ones by lia.
  unfold Int64.add.
  destruct (wrap_multiple (sq + 1)) as [k ->].
  change (2 ^ 12) with 4096.
  replace (k * 2 ^ 64) with (k * 2 ^ 52 * 4096) by lia.
  apply Z.mod_add. lia.
Qed.

Lemma rollback_check_Done (now : Z) (w : World) (now' : Z) (w1 : World) :
  rollback_check now w = Done now' w1 ->
  gen w1 = gen w
  /\ timestamp (gen w) <= now'
  /\ (now' = now \/ exists t, now' = millis (gen w) t).
Proof.
  rewrite rollback_check_eq; cbn zeta.
  destruct (Z.ltb_spec now (timestamp (gen w))) as [Hlt | Hge].
  - case_if; [ | discriminate ].
    destruct (clock w) as [ | t rest ]; [ discriminate | ].
    destruct (Z.ltb_spec (millis (gen w) t) (timestamp (gen w))); [ discriminate | ].
    intros Hinv; inversion Hinv; subst; cbn. eauto.
  - intros Hinv; inversion Hinv; subst. auto.
Qed.

Lemma rollback_check_Panic (now : Z) (w : World) (e : error) (w1 : World) :
  rollback_check now w = Panic e w1 -> gen w1 = gen w.
Proof.
  rewrite rollback_check_eq; cbn zeta.
  case_if; [ | discriminate ].
  case_if.
  - destruct (clock w) as [ | t rest ]; [ discriminate | ].
    case_if; [ | discriminate ].
    intros Hinv; inversion Hinv; reflexivity.
  - intros Hinv; inversion Hinv; reflexivity.
Qed.

Lemma sequence_step_no_Panic (now : Z) (w : World) (e : error) (w2 : World) :
  sequence_step now w <> Panic e w2.
Proof.
  rewrite sequence_step_eq; cbn zeta.
  case_if; [ | discriminate ].
  case_if; [ | discriminate ].
  destruct (spin _ _ _) as [ [now' rest] | ]; discriminate.
Qed.

Lemma sequence_step_Done (now : Z) (w : World) (now' : Z) (w2 : World) :
  0 <= sequence (gen w) <= 4095 ->
  timestamp (gen w) <= now ->
  sequence_step now w = Done now' w2 ->
  exists v,
    gen w2 = with_sequence (gen w) v
    /\ ((now' = now /\ now = timestamp (gen w)
         /\ v = sequence (gen w) + 1 /\ v <= 4095)
        \/ (timestamp (gen w) < now' /\ v = 0
            /\ (now' = now \/ exists t, now' = millis (gen w) t))).
Proof.
  intros Hs Hnow. rewrite sequence_step_eq; cbn zeta.
  destruct (Z.eqb_spec (timestamp (gen w)) now) as [Heq | Hne].
  - rewrite sequence_increment. cbn [sequence with_sequence].
    destruct (Z.eqb_spec ((sequence (gen w) + 1) mod 4096) 0) as [Hz | Hnz].
    + rewrite Hz.
      destruct (spin _ _ _) as [ [n rest] | ] eqn:Hspin; [ | discriminate ].
      intros Hinv; inversion Hinv; subst n w2; clear Hinv.
      apply spin_inv in Hspin; [ | cbn; lia ].
      destruct Hspin as (skipped & t & _ & _ & Hn & Hlt). cbn in Hn, Hlt.
      exists 0. split; [ reflexivity | right ].
      repeat split; eauto.
    + intros Hinv; inversion Hinv; subst now' w2; clear Hinv.
      assert (sequence (gen w) + 1 <= 4095).
      { destruct (Z_le_gt_dec (sequence (gen w) + 1) 4095); [ assumption | ].
        replace (sequence (gen w) + 1) with 4096 in Hnz by lia.
        exfalso; apply Hnz; reflexivity. }
      rewrite Z.mod_small by lia.
      exists (sequence (gen w) + 1). split; [ reflexivity | left ].
      repeat split; auto.
  - intros Hinv; inversion Hinv; subst now' w2; clear Hinv.
    exists 0. split; [ reflexivity | right ].
    repeat split; auto. lia.
Qed.

(** A call that returns: the identifier is the packing of the receiver as
    the call leaves it, the node identity stays, and either the sequence
    number went up by one within the millisecond or the timestamp went up
    and the sequence number is back at zero. *)
Lemma NextID_Done (w : World) (id : Z) (w' : World) :
  wf (gen w) ->
  NextID w = Done id w' ->
  let s := gen w in
  let s' := gen w' in
  epoch s' = epoch s
  /\ datacenterId s' = datacenterId s
  /\ workerId s' = workerId s
  /\ id = pack s' (timestamp s')
  /\ ((timestamp s' = timestamp s /\ sequence s' = sequence s + 1)
      \/ (timestamp s < timestamp s' /\ sequence s' = 0))
  /\ wf s'.
Proof.
  intros [Hd Hw Hs Ht]. rewrite NextID_eq.
  destruct (clock w) as [ | t rest ]; [ discriminate | ].
  destruct (rollback_check _ _) as [ now w1 | e w1 | w1 ] eqn:Hrb; try discriminate.
  apply rollback_check_Done in Hrb. cbn [gen] in Hrb.
  destruct Hrb as (Hg1 & Hle & Hnow).
  rewrite issue_eq.
  destruct (sequence_step now w1) as [ now' w2 | e w2 | w2 ] eqn:Hseq; try discriminate.
  apply sequence_step_Done in Hseq; rewrite ?Hg1; try assumption.
  rewrite Hg1 in Hseq. destruct Hseq as (v & Hg2 & Hcases).
  intros Hinv; inversion Hinv; subst id w'; clear Hinv. cbn zeta. cbn [gen].
  rewrite Hg2. cbn [with_timestamp with_sequence epoch datacenterId workerId
                    timestamp sequence].
  assert (Hrange : - millis_bound <= now' <= millis_bound).
  { destruct Hcases as [ (-> & _) | (_ & _ & [ -> | [u ->] ]) ];
      try apply millis_range.
    - destruct Hnow as [ -> | [u ->] ]; apply millis_range.
    - destruct Hnow as [ -> | [u ->] ]; apply millis_range. }
  split; [ reflexivity | ]. split; [ reflexivity | ]. split; [ reflexivity | ].
  split; [ reflexivity | ].
  split.
  - destruct Hcases as [ (-> & -> & -> & _) | (Hlt & -> & _) ]; [ left | right ];
      split; (reflexivity || lia).
  - constructor; cbn; try assumption.
    + destruct Hcases as [ (_ & _ & -> & ?) | (_ & -> & _) ]; lia.
    + destruct Hcases as [ (-> & -> & _) | (Hlt & _) ]; lia.
Qed.

Lemma issue_no_Panic (now : Z) (w1 : World) (e : error) (w2 : World) :
  issue now w1 <> Panic e w2.
Proof.
  rewrite issue_eq.
  destruct (sequence_step now w1) as [ n v | e' v | v ] eqn:Hseq; try discriminate.
  exfalso. exact (sequence_step_no_Panic _ _ _ _ Hseq).
Qed.

(** The panic is raised before any field of the receiver is assigned. *)
Lemma NextID_Panic_gen (w : World) (e : error) (w' : World) :
  NextID w = Panic e w' -> gen w' = gen w.
Proof.
  rewrite NextID_eq.
  destruct (clock w) as [ | t rest ]; [ discriminate | ].
  destruct (rollback_check _ _) as [ now w1 | e1 w1 | w1 ] eqn:Hrb.
  - intros Hp. exfalso. exact (issue_no_Panic _ _ _ _ Hp).
  - intros Hp; inversion Hp; subst.
    apply rollback_check_Panic in Hrb. exact Hrb.
  - discriminate.
Qed.

(** X17.  A call returns at once when the clock is not behind and either a new
    millisecond has begun or the counter of the current one has room. *)
Lemma NextID_returns (w : World) (t : time.Time) (rest : list time.Time) :
  clock w = t :: rest ->
  timestamp (gen w) <= millis (gen w) t ->
  timestamp (gen w) < millis (gen w) t \/ (sequence (gen w) + 1) mod 4096 <> 0 ->
  exists id s',
    NextID w = Done id {| gen := s'; clock := rest; slept := slept w |}
    /\ timestamp s' = millis (gen w) t.
Proof.
  intros Hclock Hle Hroom.
  rewrite NextID_eq, Hclock, rollback_check_eq. cbn zeta. cbn [gen clock slept].
  destruct (Z.ltb_spec (millis (gen w) t) (timestamp (gen w))); [ lia | ].
  rewrite issue_eq, sequence_step_eq. cbn zeta. cbn [gen clock slept].
  rewrite sequence_increment. cbn [sequence with_sequence].
  destruct (Z.eqb_spec (timestamp (gen w)) (millis (gen w) t)) as [Heq | Hne].
  - destruct Hroom as [Hlt | Hroom]; [ lia | ].
    destruct (Z.eqb_spec ((sequence (gen w) + 1) mod 4096) 0); [ contradiction | ].
    eexists. eexists. split; reflexivity.
  - eexists. eexists. split; reflexivity.
Qed.

(** ** Construction and reachable generators *)

Lemma New_Some (dc wk : Z) (now : time.Time) (g : SnowFlake) :
  New dc wk now = (Some g, None) ->
  0 <= dc <= 31 /\ 0 <= wk <= 31
  /\ datacenterId g = dc /\ workerId g = wk
  /\ timestamp g = 0 /\ sequence g = 0.
Proof.
  unfold New. change MAX_DATACENTER_ID with 31. change MAX_WORKER_ID with 31.
  destruct (Z.ltb_spec dc 0); cbn [orb]; [ discriminate | ].
  destruct (Z.gtb_spec dc 31); [ discriminate | ].
  destruct (Z.ltb_spec wk 0); cbn [orb]; [ discriminate | ].
  destruct (Z.gtb_spec wk 31); [ discriminate | ].
  intros Hg; inversion Hg; subst; cbn. conjs; lia.
Qed.

Lemma New_in_bounds (dc wk : Z) (now : time.Time) :
  0 <= dc <= 31 -> 0 <= wk <= 31 ->
  exists g, New dc wk now = (Some g, None).
Proof.
  intros Hd Hw. unfold New.
  change MAX_DATACENTER_ID with 31. change MAX_WORKER_ID with 31.
  destruct (Z.ltb_spec dc 0); [ lia | ].
  destruct (Z.gtb_spec dc 31); [ lia | ].
  destruct (Z.ltb_spec wk 0); [ lia | ].
  destruct (Z.gtb_spec wk 31); [ lia | ].
  cbn [orb]. eauto.
Qed.

Lemma Reachable_wf (dc wk : Z) (s : SnowFlake) :
  Reachable dc wk s ->
  wf s /\ datacenterId s = dc /\ workerId s = wk.
Proof.
  induction 1 as [ now g Hnew | s w id w' Hreach IH Hgen Hcall ].
  - apply New_Some in Hnew.
    destruct Hnew as (Hd & Hw & Hdc & Hwk & Ht & Hs).
    split; [ constructor | split; assumption ];
      rewrite ?Hdc, ?Hwk, ?Ht, ?Hs; unfold millis_bound; lia.
  - destruct IH as (Hwf & Hdc & Hwk). subst s.
    destruct (NextID_Done w id w' Hwf Hcall) as (_ & Hd' & Hw' & _ & _ & Hwf').
    split; [ assumption | split; congruence ].
Qed.

(** ** Order of the identifiers of one node *)

Lemma pack_lt (a b : SnowFlake) :
  wf a -> wf b ->
  datacenterId a = datacenterId b ->
  workerId a = workerId b ->
  rank a < rank b ->
  timestamp b - EPOCH < 2 ^ 41 ->
  pack a (timestamp a) < pack b (timestamp b).
Proof.
  intros [Ha1 Ha2 Ha3 Ha4] [Hb1 Hb2 Hb3 Hb4] Hdc Hwk Hrank Hbound.
  unfold rank in Hrank. unfold EPOCH in *.
  rewrite !pack_exact by (unfold EPOCH; lia).
  rewrite Hdc, Hwk. unfold EPOCH. lia.
Qed.

(** ** Runs *)

Lemma call_Done (s : SnowFlake) (c : list time.Time) (id : Z) (w' : World) :
  wf s ->
  call s c = Done id w' ->
  wf (gen w')
  /\ datacenterId (gen w') = datacenterId s
  /\ workerId (gen w') = workerId s
  /\ id = pack (gen w') (timestamp (gen w'))
  /\ rank s < rank (gen w').
Proof.
  intros Hwf Hcall. unfold call in Hcall.
  destruct (NextID_Done {| gen := s; clock := c; slept := [] |} _ _ Hwf Hcall)
    as (_ & Hd & Hw & Hid & Hcases & Hwf').
  cbn [gen] in *.
  conjs; try assumption.
  destruct Hwf as [_ _ Hs _], Hwf' as [_ _ Hs' _].
  unfold rank. destruct Hcases as [ (Ht & Hq) | (Hlt & Hq) ]; lia.
Qed.

(** Past the first call, the run goes on from the receiver that call left,
    which is no lower in the order and has the same node identity. *)
Lemma session_tail (s : SnowFlake) (c : list time.Time)
      (rest : list (list time.Time)) (i : nat) (r : Result Z) :
  wf s ->
  nth_error (session s (c :: rest)) (S i) = Some r ->
  let s1 := gen (world_of (call s c)) in
  wf s1
  /\ datacenterId s1 = datacenterId s
  /\ workerId s1 = workerId s
  /\ rank s <= rank s1
  /\ nth_error (session s1 rest) i = Some r.
Proof.
  intros Hwf. cbn [session nth_error].
  destruct (call s c) as [ id0 w0 | e0 w0 | w0 ] eqn:Hcall; cbn [world_of].
  - intros Hnth.
    destruct (call_Done _ _ _ _ Hwf Hcall) as (Hwf0 & Hd & Hw & _ & Hr).
    conjs; try assumption; lia.
  - intros Hnth.
    unfold call in Hcall. apply NextID_Panic_gen in Hcall. cbn [gen] in Hcall.
    rewrite Hcall in *. conjs; try assumption; (reflexivity || lia).
  - destruct i; discriminate.
Qed.

Lemma session_Done (clocks : list (list time.Time)) :
  forall s i id w',
    wf s ->
    nth_error (session s clocks) i = Some (Done id w') ->
    wf (gen w')
    /\ datacenterId (gen w') = datacenterId s
    /\ workerId (gen w') = workerId s
    /\ id = pack (gen w') (timestamp (gen w'))
    /\ rank s < rank (gen w').
Proof.
  induction clocks as [ | c rest IH ]; intros s i id w' Hwf Hnth.
  - destruct i; discriminate.
  - destruct i as [ | i ].
    + cbn [session nth_error] in Hnth. inversion Hnth as [Hcall].
      now apply call_Done with (c := c).
    + apply session_tail in Hnth; [ | assumption ].
      destruct Hnth as (Hwf1 & Hd1 & Hw1 & Hr1 & Hnth).
      destruct (IH _ _ _ _ Hwf1 Hnth) as (Hwf' & Hd' & Hw' & Hid & Hr').
      conjs; try assumption; try congruence; lia.
Qed.

Lemma session_ordered (clocks : list (list time.Time)) :
  forall s i j idA wA idB wB,
    wf s ->
    (i < j)%nat ->
    nth_error (session s clocks) i = Some (Done idA wA) ->
    nth_error (session s clocks) j = Some (Done idB wB) ->
    wf (gen wA) /\ wf (gen wB)
    /\ datacenterId (gen wA) = datacenterId (gen wB)
    /\ workerId (gen wA) = workerId (gen wB)
    /\ idA = pack (gen wA) (timestamp (gen wA))
    /\ idB = pack (gen wB) (timestamp (gen wB))
    /\ rank (gen wA) < rank (gen wB).
Proof.
  induction clocks as [ | c rest IH ]; intros s i j idA wA idB wB Hwf Hij HA HB.
  - destruct i; discriminate.
  - destruct j as [ | j ]; [ lia | ].
    destruct i as [ | i ].
    + cbn [session nth_error] in HA, HB. inversion HA as [Hcall].
      rewrite Hcall in HB. cbn [world_of] in HB.
      destruct (call_Done _ _ _ _ Hwf Hcall) as (HwfA & HdA & HwA & HidA & _).
      destruct (session_Done _ _ _ _ _ HwfA HB) as (HwfB & HdB & HwB & HidB & Hr).
      conjs; try assumption; congruence.
    + apply session_tail in HA; [ | assumption ].
      destruct HA as (Hwf1 & _ & _ & _ & HA).
      apply session_tail in HB; [ | assumption ].
      destruct HB as (_ & _ & _ & _ & HB).
      apply (IH (gen (world_of (call s c))) i j); (assumption || lia).
Qed.

(** X12.  Calls that run one after the other never return the same
    identifier twice while the timestamp field has room. *)
Lemma session_distinct (dc wk : Z) (s : SnowFlake) (clocks : list (list time.Time))
      (i j : nat) (idA : Z) (wA : World) (idB : Z) (wB : World) :
  Reachable dc wk s ->
  i <> j ->
  nth_error (session s clocks) i = Some (Done idA wA) ->
  nth_error (session s clocks) j = Some (Done idB wB) ->
  timestamp (gen wA) - EPOCH < 2 ^ 41 ->
  timestamp (gen wB) - EPOCH < 2 ^ 41 ->
  idA <> idB.
Proof.
  intros Hreach Hij HA HB HbA HbB.
  destruct (Reachable_wf _ _ _ Hreach) as (Hwf & _ & _).
  destruct (Nat.lt_total i j) as [ Hlt | [ Heq | Hgt ] ]; [ | contradiction | ].
  - destruct (session_ordered clocks s i j idA wA idB wB Hwf Hlt HA HB)
      as (HwfA & HwfB & Hd & Hw & -> & -> & Hrank).
    assert (pack (gen wA) (timestamp (gen wA)) < pack (gen wB) (timestamp (gen wB)))
      by now apply pack_lt.
    lia.
  - destruct (session_ordered clocks s j i idB wB idA wA Hwf Hgt HB HA)
      as (HwfB & HwfA & Hd & Hw & -> & -> & Hrank).
    assert (pack (gen wB) (timestamp (gen wB)) < pack (gen wA) (timestamp (gen wA)))
      by now apply pack_lt.
    lia.
Qed.

(** ** Examples *)

Example node_New : New 3 7 boot = (Some node, None).
Proof. vm_compute. reflexivity. Qed.

Example node_Reachable : Reachable 3 7 node.
Proof. apply (Reachable_New 3 7 boot). exact node_New. Qed.

Example node_first_call :
  call node [tick 1]
  = Done (-5713527885000183808) {| gen := node1; clock := []; slept := [] |}.
Proof. vm_compute. reflexivity. Qed.

Example node1_Reachable : Reachable 3 7 node1.
Proof.
  exact (Reachable_NextID 3 7 node {| gen := node; clock := [tick 1]; slept := [] |}
           _ _ node_Reachable eq_refl node_first_call).
Qed.

Example late_node_New : New 0 0 late_boot = (Some late_node, None).
Proof. vm_compute. reflexivity. Qed.

(** ** Construction *)

Lemma New_error_iff (dc wk : Z) (now : time.Time) :
  snd (New dc wk now) <> None <-> (dc < 0 \/ 31 < dc \/ wk < 0 \/ 31 < wk).
Proof.
  unfold New. change MAX_DATACENTER_ID with 31. change MAX_WORKER_ID with 31.
  split.
  - destruct (Z.ltb_spec dc 0); [ lia | ].
    destruct (Z.gtb_spec dc 31); [ lia | ].
    destruct (Z.ltb_spec wk 0); [ lia | ].
    destruct (Z.gtb_spec wk 31); [ lia | ].
    cbn [orb snd]. congruence.
  - intros Hout.
    destruct (Z.ltb_spec dc 0); [ cbn [orb snd]; congruence | ].
    destruct (Z.gtb_spec dc 31); [ cbn [orb snd]; congruence | ].
    destruct (Z.ltb_spec wk 0); [ cbn [orb snd]; congruence | ].
    destruct (Z.gtb_spec wk 31); [ cbn [orb snd]; congruence | ].
    lia.
Qed.

(** C7.  [New] reports an error exactly when [datacenterId] or the worker
    id lies outside [0, 31]; with an error the generator result is nil;
    without one the generator starts at timestamp 0 and sequence 0.
    [New 32 0] and [New 0 32] fail and [New 31 31] succeeds. *)
Theorem New_bounds (dc wk : Z) (now : time.Time) :
  (snd (New dc wk now) <> None <-> (dc < 0 \/ 31 < dc \/ wk < 0 \/ 31 < wk))
  /\ (snd (New dc wk now) <> None -> fst (New dc wk now) = None)
  /\ (snd (New dc wk now) = None ->
      exists g, fst (New dc wk now) = Some g
                /\ timestamp g = 0 /\ sequence g = 0
                /\ datacenterId g = dc /\ workerId g = wk)
  /\ snd (New 32 0 now) <> None
  /\ snd (New 0 32 now) <> None
  /\ snd (New 31 31 now) = None.
Proof.
  split; [ apply New_error_iff | ].
  split; [ | split; [ | split; [ | split ] ] ].
  - unfold New.
    destruct ((dc <? 0) || (dc >? MAX_DATACENTER_ID)); [ reflexivity | ].
    destruct ((wk <? 0) || (wk >? MAX_WORKER_ID)); [ reflexivity | ].
    cbn [snd]. congruence.
  - unfold New.
    destruct ((dc <? 0) || (dc >? MAX_DATACENTER_ID)); [ cbn [snd]; congruence | ].
    destruct ((wk <? 0) || (wk >? MAX_WORKER_ID)); [ cbn [snd]; congruence | ].
    cbn [fst]. intros _. eexists. conjs; reflexivity.
  - apply New_error_iff. lia.
  - apply New_error_iff. lia.
  - destruct (snd (New 31 31 now)) as [ e | ] eqn:He; [ | reflexivity ].
    assert (Hne : snd (New 31 31 now) <> None) by congruence.
    apply New_error_iff in Hne. lia.
Qed.

(** C8.  The error of [New] names the field, but the range it prints ends
    at 30 ([MAX_DATACENTER_ID-1], [MAX_WORKER_ID-1]) although the guard
    accepts 31: [New 32 0] and [New 0 32] report "between 0 and 30" while
    [New 31 31] is accepted. *)
Theorem New_error_prints_30 (now : time.Time) :
  New 32 0 now = (None, Some "datacenterId must be between 0 and 30"%string)
  /\ New 0 32 now = (None, Some "machineId must be between 0 and 30"%string)
  /\ snd (New 31 31 now) = None.
Proof. conjs; vm_compute; reflexivity. Qed.

(** Every error of [New] is one of these two texts. *)
Lemma New_error_texts (dc wk : Z) (now : time.Time) (e : error) :
  snd (New dc wk now) = Some e ->
  e = "datacenterId must be between 0 and 30"%string
  \/ e = "machineId must be between 0 and 30"%string.
Proof.
  unfold New.
  destruct ((dc <? 0) || (dc >? MAX_DATACENTER_ID)).
  - cbn [snd]. intros He; inversion He. left; vm_compute; reflexivity.
  - destruct ((wk <? 0) || (wk >? MAX_WORKER_ID)).
    + cbn [snd]. intros He; inversion He. right; vm_compute; reflexivity.
    + cbn [snd]. discriminate.
Qed.

(** ** The fatal path *)

(** C10.  A call of [NextID] that panics leaves the receiver as it found
    it: timestamp and sequence (and every other field) are unchanged. *)
Theorem NextID_panic_keeps_state (w : World) (e : error) (w' : World) :
  NextID w = Panic e w' ->
  gen w' = gen w
  /\ timestamp (gen w') = timestamp (gen w)
  /\ sequence (gen w') = sequence (gen w).
Proof.
  intros Hp. apply NextID_Panic_gen in Hp. rewrite Hp. auto.
Qed.

Lemma NextID_panic_keeps_state_witness :
  NextID {| gen := node1; clock := [tick (-9)]; slept := [] |}
  = Panic (rollback_message 10) {| gen := node1; clock := []; slept := [] |}
  /\ gen {| gen := node1; clock := []; slept := [] |} = node1
  /\ timestamp node1 = 215596800001
  /\ sequence node1 = 0.
Proof.
  assert (Hp : NextID {| gen := node1; clock := [tick (-9)]; slept := [] |}
               = Panic (rollback_message 10)
                       {| gen := node1; clock := []; slept := [] |})
    by (vm_compute; reflexivity).
  split; [ exact Hp | ].
  destruct (NextID_panic_keeps_state _ _ _ Hp) as (Hg & Ht & Hs).
  split; [ exact Hg | ].
  split; reflexivity.
Defined.

(** ** The identifier *)

(** C6.  For a generator built by [New dc wk] with both ids in [0, 31],
    in any state it reaches, decoding the identifier a call of [NextID]
    returns gives back [(dc, wk)]. *)
Theorem GetDeviceID_NextID (dc wk : Z) (s : SnowFlake) (w : World) (id : Z) (w' : World) :
  0 <= dc <= 31 ->
  0 <= wk <= 31 ->
  Reachable dc wk s ->
  gen w = s ->
  NextID w = Done id w' ->
  GetDeviceID id = (dc, wk).
Proof.
  intros _ _ Hreach Hgen Hcall.
  destruct (Reachable_wf _ _ _ Hreach) as (Hwf & Hdc & Hwk). subst s.
  destruct (NextID_Done w id w' Hwf Hcall) as (_ & Hd & Hw & Hid & _ & Hwf').
  rewrite Hid, pack_split by apply Hwf'.
  destruct (shl_timestamp_multiple (Int64.sub (timestamp (gen w')) EPOCH)) as [h ->].
  rewrite GetDeviceID_fields by apply Hwf'.
  congruence.
Qed.

Lemma GetDeviceID_NextID_witness :
  NextID {| gen := node; clock := [tick 1]; slept := [] |}
  = Done (-5713527885000183808) {| gen := node1; clock := []; slept := [] |}
  /\ GetDeviceID (-5713527885000183808) = (3, 7).
Proof.
  split; [ exact node_first_call | ].
  apply (GetDeviceID_NextID 3 7 node
           {| gen := node; clock := [tick 1]; slept := [] |}
           (-5713527885000183808)
           {| gen := node1; clock := []; slept := [] |}).
  - lia.
  - lia.
  - exact node_Reachable.
  - reflexivity.
  - exact node_first_call.
Defined.

(** C1.  On 2026-10-31 the clock of a fresh generator reads 215596800001
    elapsed milliseconds, a non-negative value, and the identifier
    [NextID] returns is negative. *)
Theorem NextID_negative_identifier :
  New 3 7 boot = (Some node, None)
  /\ millis node (tick 1) = 215596800001
  /\ call node [tick 1]
     = Done (-5713527885000183808) {| gen := node1; clock := []; slept := [] |}
  /\ ~ (0 <= -5713527885000183808 < 2 ^ 63).
Proof.
  split; [ exact node_New | ].
  split; [ vm_compute; reflexivity | ].
  split; [ exact node_first_call | ].
  lia.
Qed.

(** X14.  The sign of an identifier follows the sign of [now - EPOCH]: every
    identifier issued while the clock reads less than [EPOCH] is negative. *)
Lemma NextID_before_EPOCH (dc wk : Z) (s : SnowFlake) (w : World) (id : Z) (w' : World) :
  Reachable dc wk s ->
  gen w = s ->
  NextID w = Done id w' ->
  timestamp (gen w') < EPOCH ->
  id < 0.
Proof.
  intros Hreach Hgen Hcall Hlt.
  destruct (Reachable_wf _ _ _ Hreach) as (Hwf & _ & _). subst s.
  destruct (NextID_Done w id w' Hwf Hcall) as (_ & _ & _ & Hid & _ & Hwf').
  destruct Hwf' as [Hd Hw Hs Ht].
  rewrite Hid, pack_exact by (unfold EPOCH in *; lia).
  unfold EPOCH in *. lia.
Qed.

(** X13.  While [now - EPOCH] lies in [0, 2^41) the identifier is in [0, 2^63). *)
Lemma NextID_in_field (dc wk : Z) (s : SnowFlake) (w : World) (id : Z) (w' : World) :
  Reachable dc wk s ->
  gen w = s ->
  NextID w = Done id w' ->
  0 <= timestamp (gen w') - EPOCH < 2 ^ 41 ->
  0 <= id < 2 ^ 63.
Proof.
  intros Hreach Hgen Hcall Hin.
  destruct (Reachable_wf _ _ _ Hreach) as (Hwf & _ & _). subst s.
  destruct (NextID_Done w id w' Hwf Hcall) as (_ & _ & _ & Hid & _ & Hwf').
  destruct Hwf' as [Hd Hw Hs Ht].
  rewrite Hid, pack_exact by lia.
  lia.
Qed.

(** C2.  The identifier is packed from [now - EPOCH], not from the sampled
    [now]: for the first call of a fresh generator on 2026-10-31 the result
    differs from the packing of [now], and bits 62..22 hold
    [(now - EPOCH) mod 2^41] = 836812055553 instead of [now] = 215596800001. *)
Theorem NextID_packs_now_minus_EPOCH :
  millis node (tick 1) = 215596800001
  /\ call node [tick 1]
     = Done (pack node1 215596800001) {| gen := node1; clock := []; slept := [] |}
  /\ pack node1 215596800001 = -5713527885000183808
  /\ spec_pack node1 215596800001 = 904278520631816192
  /\ timestamp_field (pack node1 215596800001) = 836812055553
  /\ timestamp_field (pack node1 215596800001) <> 215596800001.
Proof.
  split; [ vm_compute; reflexivity | ].
  split; [ vm_compute; reflexivity | ].
  split; [ vm_compute; reflexivity | ].
  split; [ vm_compute; reflexivity | ].
  split; [ vm_compute; reflexivity | ].
  vm_compute. discriminate.
Qed.

(** ** Order of issue *)

(** C3 (as amended).  Of two calls on one instance that both return, the
    earlier one returns the smaller identifier, as long as the value packed
    into the timestamp field at the later call is below [2^41].  Calls in
    between may return or panic. *)
Theorem NextID_monotonic (dc wk : Z) (s : SnowFlake) (clocks : list (list time.Time))
        (i j : nat) (idA : Z) (wA : World) (idB : Z) (wB : World) :
  Reachable dc wk s ->
  (i < j)%nat ->
  nth_error (session s clocks) i = Some (Done idA wA) ->
  nth_error (session s clocks) j = Some (Done idB wB) ->
  timestamp (gen wB) - EPOCH < 2 ^ 41 ->
  idA < idB.
Proof.
  intros Hreach Hij HA HB Hbound.
  destruct (Reachable_wf _ _ _ Hreach) as (Hwf & _ & _).
  destruct (session_ordered clocks s i j idA wA idB wB Hwf Hij HA HB)
    as (HwfA & HwfB & Hd & Hw & -> & -> & Hrank).
  now apply pack_lt.
Qed.

Lemma NextID_monotonic_witness :
  session node [[tick 1]; [tick (-2); tick 1]; [tick (-20)]; [tick 1]]
  = [ Done (-5713527885000183808)
           {| gen := node1; clock := []; slept := [] |};
      Done (-5713527885000183807)
           {| gen := with_sequence node1 1; clock := []; slept := [6000000] |};
      Panic (rollback_message 21)
            {| gen := with_sequence node1 1; clock := []; slept := [] |};
      Done (-5713527885000183806)
           {| gen := with_sequence node1 2; clock := []; slept := [] |} ]
  /\ -5713527885000183808 < -5713527885000183806.
Proof.
  assert (Hrun :
    session node [[tick 1]; [tick (-2); tick 1]; [tick (-20)]; [tick 1]]
    = [ Done (-5713527885000183808)
             {| gen := node1; clock := []; slept := [] |};
        Done (-5713527885000183807)
             {| gen := with_sequence node1 1; clock := []; slept := [6000000] |};
        Panic (rollback_message 21)
              {| gen := with_sequence node1 1; clock := []; slept := [] |};
        Done (-5713527885000183806)
             {| gen := with_sequence node1 2; clock := []; slept := [] |} ])
    by (vm_compute; reflexivity).
  split; [ exact Hrun | ].
  apply (NextID_monotonic 3 7 node
           [[tick 1]; [tick (-2); tick 1]; [tick (-20)]; [tick 1]]
           0%nat 3%nat
           (-5713527885000183808) {| gen := node1; clock := []; slept := [] |}
           (-5713527885000183806)
           {| gen := with_sequence node1 2; clock := []; slept := [] |}).
  - exact node_Reachable.
  - lia.
  - rewrite Hrun. reflexivity.
  - rewrite Hrun. reflexivity.
  - vm_compute. reflexivity.
Defined.

(** C3 (as stated) fails once the timestamp field overflows: a generator
    built in September 2139 issues 9223372036850581504 and, one
    millisecond later, -9223372036854775808, with the clock moving forward
    and no call panicking. *)
Lemma NextID_monotonic_counterexample :
  Reachable 0 0 late_node
  /\ millis late_node (late 1) < millis late_node (late 2)
  /\ session late_node [[late 1]; [late 2]]
     = [ Done 9223372036850581504
              {| gen := with_timestamp late_node 3776831255551;
                 clock := []; slept := [] |};
         Done (-9223372036854775808)
              {| gen := with_timestamp late_node 3776831255552;
                 clock := []; slept := [] |} ]
  /\ ~ (9223372036850581504 < -9223372036854775808).
Proof.
  split; [ apply (Reachable_New 0 0 late_boot); exact late_node_New | ].
  split; [ vm_compute; reflexivity | ].
  split; [ vm_compute; reflexivity | ].
  lia.
Qed.

(** ** Clock rollback *)

(** C4.  When the first sample [now] is behind the recorded timestamp by
    [offset]: with [offset <= 3] the call sleeps [2 * offset] milliseconds,
    takes a second sample and goes on from it, panicking if that one is
    still behind; with [offset > 3] it panics at once.  The call panics in
    exactly these two cases, and the panic reports how far the latest
    sample is behind. *)
Theorem NextID_rollback (dc wk : Z) (s : SnowFlake) (t1 t2 : time.Time)
        (rest : list time.Time) (zs : list time.Duration) :
  Reachable dc wk s ->
  millis s t1 < timestamp s ->
  let w := {| gen := s; clock := t1 :: t2 :: rest; slept := zs |} in
  let offset := timestamp s - millis s t1 in
  let woken := {| gen := s; clock := rest;
                  slept := zs ++ [2 * offset * time.Millisecond] |} in
  (offset <= 3 ->
   NextID w =
     if millis s t2 <? timestamp s
     then Panic (rollback_message (timestamp s - millis s t2)) woken
     else issue (millis s t2) woken)
  /\ (3 < offset ->
      NextID w = Panic (rollback_message offset)
                       {| gen := s; clock := t2 :: rest; slept := zs |})
  /\ ((exists e w', NextID w = Panic e w')
      <-> (3 < offset \/ (offset <= 3 /\ millis s t2 < timestamp s))).
Proof.
  intros Hreach Hlt w offset woken.
  destruct (Reachable_wf _ _ _ Hreach) as ([_ _ _ Ht] & _ & _).
  pose proof (millis_range s t1) as R1.
  pose proof (millis_range s t2) as R2.
  unfold millis_bound in *.
  assert (Hsub1 : Int64.sub (timestamp s) (millis s t1) = offset).
  { unfold Int64.sub. apply wrap_small.
    unfold Int64.in_range, Int64.min_int, Int64.max_int. lia. }
  assert (Hsub2 : Int64.sub (timestamp s) (millis s t2) = timestamp s - millis s t2).
  { unfold Int64.sub. apply wrap_small.
    unfold Int64.in_range, Int64.min_int, Int64.max_int. lia. }
  assert (Hsleep : offset <= 3 ->
            Int64.mul time.Millisecond (Int64.shl offset 1)
            = 2 * offset * time.Millisecond).
  { intros Hsmall. unfold Int64.mul, time.Millisecond.
    rewrite shl_small
      by (unfold Int64.in_range, Int64.min_int, Int64.max_int; lia).
    rewrite wrap_small
      by (unfold Int64.in_range, Int64.min_int, Int64.max_int; lia).
    lia. }
  assert (Heq : NextID w =
            if offset <=? 3 then
              if millis s t2 <? timestamp s
              then Panic (rollback_message (timestamp s - millis s t2)) woken
              else issue (millis s t2) woken
            else Panic (rollback_message offset)
                       {| gen := s; clock := t2 :: rest; slept := zs |}).
  { rewrite NextID_eq. cbn [clock gen slept w].
    rewrite rollback_check_eq. cbn zeta. cbn [clock gen slept].
    destruct (Z.ltb_spec (millis s t1) (timestamp s)) as [ _ | ]; [ | lia ].
    rewrite Hsub1. change MAX_BACKWARD_MS with 3.
    destruct (Z.leb_spec offset 3) as [Hsmall | Hbig]; [ | reflexivity ].
    rewrite (Hsleep Hsmall), Hsub2. fold woken.
    destruct (millis s t2 <? timestamp s); reflexivity. }
  split; [ | split ].
  - intros Hsmall. rewrite Heq.
    destruct (Z.leb_spec offset 3); [ reflexivity | lia ].
  - intros Hbig. rewrite Heq.
    destruct (Z.leb_spec offset 3); [ lia | reflexivity ].
  - rewrite Heq.
    destruct (Z.leb_spec offset 3) as [Hsmall | Hbig].
    + destruct (Z.ltb_spec (millis s t2) (timestamp s)) as [Hstill | Hok].
      * split; [ intros _; right; split; assumption | intros _; eauto ].
      * split.
        -- intros (e & w' & Hp). exfalso. exact (issue_no_Panic _ _ _ _ Hp).
        -- intros [ Hbig | (_ & Hstill) ]; lia.
    + split; [ intros _; left; assumption | intros _; eauto ].
Qed.

Lemma NextID_rollback_witness :
  millis node1 (tick (-1)) < timestamp node1
  /\ NextID {| gen := node1; clock := [tick (-1); tick 3]; slept := [] |}
     = Done (-5713527884991795200)
            {| gen := with_timestamp node1 215596800003;
               clock := []; slept := [4000000] |}.
Proof.
  assert (Hlt : millis node1 (tick (-1)) < timestamp node1)
    by (vm_compute; reflexivity).
  split; [ exact Hlt | ].
  destruct (NextID_rollback 3 7 node1 (tick (-1)) (tick 3) [] []
              node1_Reachable Hlt) as (Hsmall & _ & _).
  rewrite Hsmall by (vm_compute; discriminate).
  vm_compute. reflexivity.
Defined.

(** ** The sequence counter *)

(** C5.  With [now] the sample that comes out of the rollback handling:
    if [now] equals the recorded timestamp the sequence becomes
    [(sequence + 1) mod 4096]; when that is 0 the call drops clock readings
    up to the first one past the recorded timestamp and goes on with it
    (and does not return while there is none); if [now] differs, the
    sequence is reset to 0.  In each case the timestamp recorded and packed
    is the final [now]. *)
Theorem NextID_sequence (w : World) (t : time.Time) (rest0 : list time.Time)
        (now : Z) (w1 : World) :
  clock w = t :: rest0 ->
  rollback_check (millis (gen w) t)
    {| gen := gen w; clock := rest0; slept := slept w |} = Done now w1 ->
  let s := gen w in
  let bumped := (sequence s + 1) mod 4096 in
  let issued (s' : SnowFlake) (left : list time.Time) : Result Z :=
    Done (pack s' (timestamp s')) {| gen := s'; clock := left; slept := slept w1 |} in
  (now = timestamp s -> bumped <> 0 ->
   NextID w = issued (with_timestamp (with_sequence s bumped) now) (clock w1))
  /\ (now = timestamp s -> bumped = 0 ->
      forall skipped u left,
        clock w1 = skipped ++ u :: left ->
        Forall (fun v => millis s v <= timestamp s) skipped ->
        timestamp s < millis s u ->
        NextID w = issued (with_timestamp (with_sequence s 0) (millis s u)) left)
  /\ (now = timestamp s -> bumped = 0 ->
      Forall (fun v => millis s v <= timestamp s) (clock w1) ->
      exists w2, NextID w = Starved w2)
  /\ (now <> timestamp s ->
      NextID w = issued (with_timestamp (with_sequence s 0) now) (clock w1)).
Proof.
  intros Hclock Hrb s bumped issued.
  assert (Heq : NextID w = issue now w1).
  { rewrite NextID_eq, Hclock, Hrb. reflexivity. }
  apply rollback_check_Done in Hrb. cbn [gen] in Hrb.
  destruct Hrb as (Hg1 & _ & _).
  rewrite Heq, issue_eq, sequence_step_eq. cbn zeta.
  rewrite Hg1, sequence_increment. fold s. fold bumped.
  cbn [sequence with_sequence].
  split; [ | split; [ | split ] ].
  - intros Hnow Hb.
    destruct (Z.eqb_spec (timestamp s) now); [ | congruence ].
    destruct (Z.eqb_spec bumped 0); [ contradiction | ].
    reflexivity.
  - intros Hnow Hb skipped u left Hleft Hall Hu.
    destruct (Z.eqb_spec (timestamp s) now); [ | congruence ].
    destruct (Z.eqb_spec bumped 0); [ | contradiction ].
    rewrite Hleft, Hb.
    rewrite (spin_skip (with_sequence s 0) skipped now u left);
      [ reflexivity | cbn; lia | exact Hall | exact Hu ].
  - intros Hnow Hb Hall.
    destruct (Z.eqb_spec (timestamp s) now); [ | congruence ].
    destruct (Z.eqb_spec bumped 0); [ | contradiction ].
    rewrite Hb.
    rewrite (spin_starved (with_sequence s 0) (clock w1) now);
      [ eauto | cbn; lia | exact Hall ].
  - intros Hnow.
    destruct (Z.eqb_spec (timestamp s) now); [ congruence | ].
    reflexivity.
Qed.

Lemma NextID_sequence_witness :
  NextID {| gen := node_full; clock := [tick 1; tick 1; tick 2]; slept := [] |}
  = Done (-5713527884995989504)
         {| gen := with_timestamp (with_sequence node_full 0) 215596800002;
            clock := []; slept := [] |}.
Proof.
  pose (w := {| gen := node_full; clock := [tick 1; tick 1; tick 2]; slept := [] |}).
  pose (w1 := {| gen := node_full; clock := [tick 1; tick 2]; slept := [] |}).
  assert (Hrb : rollback_check (millis (gen w) (tick 1))
                  {| gen := gen w; clock := [tick 1; tick 2]; slept := slept w |}
                = Done 215596800001 w1)
    by (vm_compute; reflexivity).
  destruct (NextID_sequence w (tick 1) [tick 1; tick 2] 215596800001 w1
              eq_refl Hrb) as (_ & Hwrap & _ & _).
  change (NextID w = Done (-5713527884995989504)
         {| gen := with_timestamp (with_sequence node_full 0) 215596800002;
            clock := []; slept := [] |}).
  rewrite (Hwrap eq_refl eq_refl [tick 1] (tick 2) [] eq_refl).
  - vm_compute. reflexivity.
  - constructor; [ vm_compute; discriminate | constructor ].
  - vm_compute. reflexivity.
Defined.

(** ** Decoding any integer *)

(** X1.  Whatever integer is decoded, both fields come out in [0, 31]. *)
Theorem GetDeviceID_range (sid : Z) :
  0 <= fst (GetDeviceID sid) <= 31 /\ 0 <= snd (GetDeviceID sid) <= 31.
Proof.
  unfold GetDeviceID, Int64.shr. cbn [fst snd].
  change MAX_DATACENTER_ID with (Z.ones 5). change MAX_WORKER_ID with (Z.ones 5).
  rewrite !Z.land_ones by lia.
  pose proof (Z.mod_pos_bound (Z.shiftr sid SHIFT_DATACENTER) (2 ^ 5) ltac:(lia)).
  pose proof (Z.mod_pos_bound (Z.shiftr sid SHIFT_WORKER) (2 ^ 5) ltac:(lia)).
  change (2 ^ 5) with 32 in *. lia.
Qed.

(** ** The clock of a generator *)

Lemma saturate_monotone (a b : Z) : a <= b -> time.saturate a <= time.saturate b.
Proof. unfold time.saturate. lia. Qed.

Lemma quot_monotone (a b : Z) : a <= b -> Z.quot a 1000000 <= Z.quot b 1000000.
Proof. intros H. Z.to_euclidean_division_equations. lia. Qed.

Lemma quot_in_range (d : Z) :
  Int64.in_range d -> Int64.quot d 1000000 = Z.quot d 1000000.
Proof.
  intros R. unfold Int64.quot. apply wrap_small.
  unfold Int64.in_range, Int64.min_int, Int64.max_int in *.
  Z.to_euclidean_division_equations. lia.
Qed.

(** X2.  Once the anchor has a monotonic reading, [GetNow] follows the monotonic
    clock alone: a reading taken at a later monotonic instant never gives a
    smaller value, whatever the wall clocks of the two readings say. *)
Theorem GetNow_follows_monotonic_clock (s : SnowFlake) (e : Z) (t1 t2 : time.Time)
        (m1 m2 : Z) :
  time.mono (epoch s) = Some e ->
  time.mono t1 = Some m1 ->
  time.mono t2 = Some m2 ->
  m1 <= m2 ->
  millis s t1 <= millis s t2.
Proof.
  intros He H1 H2 Hle.
  unfold millis, time.Nanoseconds, time.Since, time.Sub.
  rewrite He, H1, H2.
  rewrite !quot_in_range by apply saturate_range.
  apply quot_monotone, saturate_monotone. lia.
Qed.

Lemma GetNow_follows_monotonic_clock_witness :
  millis node (instant 0 5001000000) <= millis node (instant 99 5002000000).
Proof.
  apply (GetNow_follows_monotonic_clock node (-215596795000000000)
           (instant 0 5001000000) (instant 99 5002000000)
           5001000000 5002000000).
  - reflexivity.
  - reflexivity.
  - reflexivity.
  - lia.
Defined.

(** The anchor arithmetic shared by [New] and [main]: the epoch keeps the
    wall clock of [EPOCH] and a monotonic reading shifted by the same
    distance, so that a later monotonic reading [m] is [w0 - EPOCH + (m - m0)]
    nanoseconds past it. *)
Lemma anchor_elapsed (w0 m0 w m : Z) :
  Int64.in_range (EPOCH * 1000000 - w0) ->
  Int64.in_range (m0 + (EPOCH * 1000000 - w0)) ->
  Int64.in_range (w0 - EPOCH * 1000000 + (m - m0)) ->
  Int64.quot
    (time.Nanoseconds
       (time.Since (instant w m)
          (time.Add (instant w0 m0)
             (time.Sub (time.Unix (Int64.quot EPOCH 1000)
                                  (Int64.mul (Z.rem EPOCH 1000) 1000000))
                       (instant w0 m0)))))
    1000000
  = Z.quot (w0 - EPOCH * 1000000 + (m - m0)) 1000000.
Proof.
  intros R1 R2 R3.
  change (Int64.quot EPOCH 1000) with 1577808000.
  change (Int64.mul (Z.rem EPOCH 1000) 1000000) with 0.
  unfold time.Nanoseconds, time.Since, time.Sub, time.Add, time.Unix, instant,
    time.Second.
  cbn [time.mono time.wall].
  replace (1577808000 * 1000000000 + 0 - w0) with (EPOCH * 1000000 - w0)
    by (unfold EPOCH; lia).
  assert (Hs : forall d, Int64.in_range d -> time.saturate d = d).
  { intros d. unfold time.saturate, Int64.in_range. lia. }
  rewrite (Hs _ R1).
  assert (Hb : Int64.in_rangeb (m0 + (EPOCH * 1000000 - w0)) = true).
  { unfold Int64.in_rangeb, Int64.in_range in *.
    apply andb_true_intro. split; apply Z.leb_le; lia. }
  rewrite Hb.
  replace (m - (m0 + (EPOCH * 1000000 - w0)))
    with (w0 - EPOCH * 1000000 + (m - m0)) by lia.
  rewrite (Hs _ R3).
  now apply quot_in_range.
Qed.

(** X3.  A generator built at wall clock [w0] and monotonic reading [m0] reads,
    at monotonic instant [m], the whole milliseconds of
    [w0 - EPOCH + (m - m0)]: the time from [EPOCH] to construction by the
    wall clock plus the time since construction by the monotonic clock.
    The wall clock [w] of the later reading plays no part. *)
Theorem New_GetNow_elapsed (dc wk w0 m0 w m : Z) (g : SnowFlake) :
  New dc wk (instant w0 m0) = (Some g, None) ->
  Int64.in_range (EPOCH * 1000000 - w0) ->
  Int64.in_range (m0 + (EPOCH * 1000000 - w0)) ->
  Int64.in_range (w0 - EPOCH * 1000000 + (m - m0)) ->
  millis g (instant w m) = Z.quot (w0 - EPOCH * 1000000 + (m - m0)) 1000000.
Proof.
  intros Hnew R1 R2 R3.
  assert (He : epoch g =
            time.Add (instant w0 m0)
              (time.Sub (time.Unix (Int64.quot EPOCH 1000)
                                   (Int64.mul (Z.rem EPOCH 1000) 1000000))
                        (instant w0 m0))).
  { unfold New in Hnew.
    destruct ((dc <? 0) || (dc >? MAX_DATACENTER_ID)); [ discriminate | ].
    destruct ((wk <? 0) || (wk >? MAX_WORKER_ID)); [ discriminate | ].
    inversion Hnew. reflexivity. }
  unfold millis. rewrite He.
  now apply anchor_elapsed.
Qed.

Lemma New_GetNow_elapsed_witness :
  millis node (instant 0 5001000000) = 215596800001.
Proof.
  rewrite (New_GetNow_elapsed 3 7 (1793404800 * 1000000000) 5000000000
             0 5001000000 node).
  - vm_compute. reflexivity.
  - exact node_New.
  - unfold Int64.in_range; vm_compute; split; discriminate.
  - unfold Int64.in_range; vm_compute; split; discriminate.
  - unfold Int64.in_range; vm_compute; split; discriminate.
Defined.

(** X4.  [main] prints that same elapsed time: for readings in range the line
    is "now", a blank, the whole milliseconds of [w0 - EPOCH + (m - m0)]
    in decimal, and a newline. *)
Theorem main_prints_elapsed (w0 m0 w m : Z) :
  Int64.in_range (EPOCH * 1000000 - w0) ->
  Int64.in_range (m0 + (EPOCH * 1000000 - w0)) ->
  Int64.in_range (w0 - EPOCH * 1000000 + (m - m0)) ->
  main (instant w0 m0) (instant w m)
  = ("now " ++ decimal (Z.quot (w0 - EPOCH * 1000000 + (m - m0)) 1000000)
     ++ newline)%string.
Proof.
  intros R1 R2 R3. unfold main. cbn zeta.
  change 1577808000000 with EPOCH.
  rewrite (anchor_elapsed w0 m0 w m R1 R2 R3).
  reflexivity.
Qed.

Lemma main_prints_elapsed_witness :
  main boot (tick 1) = ("now 215596800001" ++ newline)%string.
Proof.
  unfold boot, tick.
  rewrite (main_prints_elapsed (1793404800 * 1000000000) 5000000000
             (1793404800 * 1000000000 + 1 * 1000000) (5000000000 + 1 * 1000000)).
  - vm_compute. reflexivity.
  - unfold Int64.in_range; vm_compute; split; discriminate.
  - unfold Int64.in_range; vm_compute; split; discriminate.
  - unfold Int64.in_range; vm_compute; split; discriminate.
Defined.

(** ** What every call keeps *)

Lemma rollback_check_gen (now : Z) (w : World) :
  gen (world_of (rollback_check now w)) = gen w.
Proof.
  rewrite rollback_check_eq; cbn zeta.
  case_if; [ | reflexivity ].
  case_if; [ | reflexivity ].
  destruct (clock w) as [ | t rest ]; [ reflexivity | ].
  case_if; reflexivity.
Qed.

(** The receiver after [issue], whatever the outcome: same node and epoch,
    a timestamp that is [now] or later and no earlier than before when [now]
    is not behind, and after a return a sequence number in [0, 4095]. *)
Lemma issue_outcome (now : Z) (w1 : World) :
  timestamp (gen w1) <= now ->
  let r := issue now w1 in
  let s := gen w1 in
  let s' := gen (world_of r) in
  epoch s' = epoch s
  /\ datacenterId s' = datacenterId s
  /\ workerId s' = workerId s
  /\ timestamp s <= timestamp s'
  /\ (forall id w', r = Done id w' -> 0 <= sequence s' <= 4095).
Proof.
  intros Hle. cbn zeta.
  rewrite issue_eq, sequence_step_eq. cbn zeta.
  rewrite sequence_increment.
  destruct (Z.eqb_spec (timestamp (gen w1)) now) as [Heq | Hne].
  - cbn [sequence with_sequence].
    pose proof (Z.mod_pos_bound (sequence (gen w1) + 1) 4096 ltac:(lia)) as Hm.
    destruct (Z.eqb_spec ((sequence (gen w1) + 1) mod 4096) 0) as [Hz | Hnz].
    + destruct (spin _ _ _) as [ [now' rest] | ] eqn:Hspin.
      * apply spin_inv in Hspin; [ | cbn; lia ].
        destruct Hspin as (_ & _ & _ & _ & _ & Hlt). cbn in Hlt.
        cbn. conjs; first [ reflexivity | lia | intros; lia ].
      * cbn. conjs; first [ reflexivity | lia | discriminate ].
    + cbn. conjs; first [ reflexivity | lia | intros; lia ].
  - cbn. conjs; first [ reflexivity | lia | intros; lia ].
Qed.

Lemma NextID_outcome (w : World) :
  let r := NextID w in
  let s := gen w in
  let s' := gen (world_of r) in
  epoch s' = epoch s
  /\ datacenterId s' = datacenterId s
  /\ workerId s' = workerId s
  /\ timestamp s <= timestamp s'
  /\ (forall id w', r = Done id w' -> 0 <= sequence s' <= 4095).
Proof.
  cbn zeta. rewrite NextID_eq.
  destruct (clock w) as [ | t rest ].
  - cbn. conjs; first [ reflexivity | lia | discriminate ].
  - pose proof (rollback_check_gen (millis (gen w) t)
                  {| gen := gen w; clock := rest; slept := slept w |}) as Hg.
    cbn [gen] in Hg.
    destruct (rollback_check _ _) as [ now w1 | e w1 | w1 ] eqn:Hrb; cbn [world_of] in *.
    + apply rollback_check_Done in Hrb. cbn [gen] in Hrb.
      destruct Hrb as (_ & Hle & _).
      rewrite <- Hg in Hle. rewrite <- Hg.
      now apply issue_outcome.
    + rewrite Hg. conjs; first [ reflexivity | lia | discriminate ].
    + rewrite Hg. conjs; first [ reflexivity | lia | discriminate ].
Qed.

(** X5.  No call, whether it returns, panics or is still waiting, changes the
    epoch anchor, the datacenter id or the worker id of the generator. *)
Theorem NextID_keeps_identity (w : World) :
  epoch (gen (world_of (NextID w))) = epoch (gen w)
  /\ datacenterId (gen (world_of (NextID w))) = datacenterId (gen w)
  /\ workerId (gen (world_of (NextID w))) = workerId (gen w).
Proof.
  destruct (NextID_outcome w) as (He & Hd & Hw & _). auto.
Qed.

(** X6.  The recorded timestamp never goes down, from any state and on any
    clock: a call leaves it where it was or moves it forward. *)
Theorem NextID_timestamp_never_decreases (w : World) :
  timestamp (gen w) <= timestamp (gen (world_of (NextID w))).
Proof.
  destruct (NextID_outcome w) as (_ & _ & _ & Ht & _). exact Ht.
Qed.

(** X7.  For a generator built by [New], after a call that returns the sequence
    number is in [0, 4095] and the low 12 bits of the identifier are that
    sequence number. *)
Theorem NextID_sequence_field (dc wk : Z) (s : SnowFlake) (w : World) (id : Z) (w' : World) :
  Reachable dc wk s ->
  gen w = s ->
  NextID w = Done id w' ->
  0 <= sequence (gen w') <= 4095
  /\ Z.land id MAX_SEQUENCE_ID = sequence (gen w').
Proof.
  intros Hreach Hgen Hcall.
  destruct (Reachable_wf _ _ _ Hreach) as (Hwf & _ & _). subst s.
  destruct (NextID_Done w id w' Hwf Hcall) as (_ & _ & _ & Hid & _ & Hwf').
  destruct Hwf' as [Hd Hw Hs Ht].
  split; [ exact Hs | ].
  rewrite Hid, pack_split by assumption.
  destruct (shl_timestamp_multiple (Int64.sub (timestamp (gen w')) EPOCH)) as [h ->].
  change MAX_SEQUENCE_ID with (Z.ones 12).
  rewrite Z.land_ones by lia.
  change (2 ^ 12) with 4096. change (2 ^ 22) with 4194304.
  change (2 ^ 17) with 131072.
  Z.div_mod_to_equations. lia.
Qed.

Lemma NextID_sequence_field_witness :
  0 <= sequence (with_sequence node1 1) <= 4095
  /\ Z.land (-5713527885000183807) MAX_SEQUENCE_ID = sequence (with_sequence node1 1).
Proof.
  apply (NextID_sequence_field 3 7 node1
           {| gen := node1; clock := [tick 1]; slept := [] |}
           (-5713527885000183807)
           {| gen := with_sequence node1 1; clock := []; slept := [] |}).
  - exact node1_Reachable.
  - reflexivity.
  - vm_compute. reflexivity.
Defined.

(** ** When a call panics or sleeps *)

Lemma NextID_not_behind_eq (w : World) (t : time.Time) (rest : list time.Time) :
  clock w = t :: rest ->
  timestamp (gen w) <= millis (gen w) t ->
  NextID w = issue (millis (gen w) t)
                   {| gen := gen w; clock := rest; slept := slept w |}.
Proof.
  intros Hclock Hle.
  rewrite NextID_eq, Hclock, rollback_check_eq. cbn zeta. cbn [gen clock slept].
  destruct (Z.ltb_spec (millis (gen w) t) (timestamp (gen w))); [ lia | ].
  reflexivity.
Qed.

Lemma issue_slept (now : Z) (w1 : World) :
  slept (world_of (issue now w1)) = slept w1.
Proof.
  rewrite issue_eq, sequence_step_eq. cbn zeta.
  case_if; [ | reflexivity ].
  case_if; [ | reflexivity ].
  destruct (spin _ _ _) as [ [now' left] | ]; reflexivity.
Qed.

(** X8.  A call whose first sample is not behind the recorded timestamp does
    not panic and does not sleep. *)
Theorem NextID_clock_not_behind (w : World) (t : time.Time) (rest : list time.Time) :
  clock w = t :: rest ->
  timestamp (gen w) <= millis (gen w) t ->
  (forall e w', NextID w <> Panic e w')
  /\ slept (world_of (NextID w)) = slept w.
Proof.
  intros Hclock Hle.
  rewrite (NextID_not_behind_eq w t rest Hclock Hle).
  split.
  - intros e w'. apply issue_no_Panic.
  - rewrite issue_slept. reflexivity.
Qed.

Lemma NextID_clock_not_behind_witness :
  (forall e w', NextID {| gen := node1; clock := [tick 1]; slept := [] |} <> Panic e w')
  /\ slept (world_of (NextID {| gen := node1; clock := [tick 1]; slept := [] |})) = [].
Proof.
  apply (NextID_clock_not_behind
           {| gen := node1; clock := [tick 1]; slept := [] |} (tick 1) []).
  - reflexivity.
  - vm_compute. discriminate.
Defined.

(** X9.  A call sleeps at most once, and then for 2, 4 or 6 milliseconds. *)
Theorem NextID_sleeps_at_most_6ms (dc wk : Z) (s : SnowFlake) (w : World) :
  Reachable dc wk s ->
  gen w = s ->
  slept (world_of (NextID w)) = slept w
  \/ exists k, 1 <= k <= 3
               /\ slept (world_of (NextID w)) = slept w ++ [2 * k * time.Millisecond].
Proof.
  intros Hreach Hgen.
  destruct (Reachable_wf _ _ _ Hreach) as ([_ _ _ Ht] & _ & _). subst s.
  destruct (clock w) as [ | t rest ] eqn:Hclock.
  { left. rewrite NextID_eq, Hclock. reflexivity. }
  destruct (Z_le_gt_dec (timestamp (gen w)) (millis (gen w) t)) as [Hle | Hgt].
  - left. rewrite (NextID_not_behind_eq w t rest Hclock Hle).
    rewrite issue_slept. reflexivity.
  - rewrite NextID_eq, Hclock, rollback_check_eq. cbn zeta. cbn [gen clock slept].
    destruct (Z.ltb_spec (millis (gen w) t) (timestamp (gen w))); [ | lia ].
    pose proof (millis_range (gen w) t) as R. unfold millis_bound in *.
    assert (Hsub : Int64.sub (timestamp (gen w)) (millis (gen w) t)
                   = timestamp (gen w) - millis (gen w) t).
    { unfold Int64.sub. apply wrap_small.
      unfold Int64.in_range, Int64.min_int, Int64.max_int. lia. }
    rewrite Hsub. change MAX_BACKWARD_MS with 3.
    set (offset := timestamp (gen w) - millis (gen w) t) in *.
    destruct (Z.leb_spec offset 3) as [Hsmall | Hbig]; [ | left; reflexivity ].
    assert (Hsleep : Int64.mul time.Millisecond (Int64.shl offset 1)
                     = 2 * offset * time.Millisecond).
    { unfold Int64.mul, time.Millisecond.
      rewrite shl_small
        by (unfold Int64.in_range, Int64.min_int, Int64.max_int; lia).
      rewrite wrap_small
        by (unfold Int64.in_range, Int64.min_int, Int64.max_int; lia).
      lia. }
    rewrite Hsleep.
    right. exists offset. split; [ lia | ].
    destruct rest as [ | t2 rest2 ]; [ reflexivity | ].
    destruct (Z.ltb_spec (millis (gen w) t2) (timestamp (gen w))) as [ | Hok ];
      [ reflexivity | ].
    rewrite issue_slept. reflexivity.
Qed.

Lemma NextID_sleeps_at_most_6ms_witness :
  let w := {| gen := node1; clock := [tick (-2); tick 1]; slept := [] |} in
  slept (world_of (NextID w)) = slept w
  \/ exists k, 1 <= k <= 3
               /\ slept (world_of (NextID w)) = slept w ++ [2 * k * time.Millisecond].
Proof.
  exact (NextID_sleeps_at_most_6ms 3 7 node1
           {| gen := node1; clock := [tick (-2); tick 1]; slept := [] |}
           node1_Reachable eq_refl).
Defined.

(** ** Identifiers of one millisecond and of different nodes *)

(** X10.  A call that lands in the millisecond of the previous identifier, with
    the counter below 4095, returns the previous identifier plus one. *)
Theorem NextID_same_millisecond_successor (dc wk : Z) (s : SnowFlake)
        (wA : World) (idA : Z) (wA' : World)
        (t : time.Time) (rest : list time.Time) (zs : list time.Duration) :
  Reachable dc wk s ->
  gen wA = s ->
  NextID wA = Done idA wA' ->
  millis (gen wA') t = timestamp (gen wA') ->
  sequence (gen wA') < 4095 ->
  NextID {| gen := gen wA'; clock := t :: rest; slept := zs |}
  = Done (idA + 1)
         {| gen := with_sequence (gen wA') (sequence (gen wA') + 1);
            clock := rest; slept := zs |}.
Proof.
  intros Hreach Hgen HA Hsame Hroom.
  destruct (Reachable_wf _ _ _ Hreach) as (Hwf & _ & _). subst s.
  destruct (NextID_Done wA idA wA' Hwf HA) as (_ & _ & _ & Hid & _ & Hwf').
  destruct Hwf' as [Hd Hw Hs Ht].
  set (s1 := gen wA') in *.
  rewrite (NextID_not_behind_eq {| gen := s1; clock := t :: rest; slept := zs |}
             t rest eq_refl) by (cbn [gen]; lia).
  cbn [gen slept]. rewrite issue_eq, sequence_step_eq. cbn zeta. cbn [gen clock slept].
  rewrite sequence_increment, Hsame, Z.eqb_refl.
  cbn [sequence with_sequence].
  rewrite Z.mod_small by lia.
  destruct (Z.eqb_spec (sequence s1 + 1) 0); [ lia | ].
  cbn [gen clock slept].
  assert (Hs1 : with_timestamp (with_sequence s1 (sequence s1 + 1)) (timestamp s1)
                = with_sequence s1 (sequence s1 + 1)) by reflexivity.
  rewrite Hs1. f_equal.
  rewrite Hid, !pack_split by (cbn; lia).
  cbn. lia.
Qed.

Lemma NextID_same_millisecond_successor_witness :
  NextID {| gen := node1; clock := [tick 1]; slept := [] |}
  = Done (-5713527885000183808 + 1)
         {| gen := with_sequence node1 (sequence node1 + 1); clock := []; slept := [] |}.
Proof.
  apply (NextID_same_millisecond_successor 3 7 node
           {| gen := node; clock := [tick 1]; slept := [] |}
           (-5713527885000183808)
           {| gen := node1; clock := []; slept := [] |}
           (tick 1) [] []).
  - exact node_Reachable.
  - reflexivity.
  - exact node_first_call.
  - vm_compute. reflexivity.
  - vm_compute. reflexivity.
Defined.

Lemma NextID_device (dc wk : Z) (s : SnowFlake) (w : World) (id : Z) (w' : World) :
  Reachable dc wk s ->
  gen w = s ->
  NextID w = Done id w' ->
  GetDeviceID id = (dc, wk).
Proof.
  intros Hreach Hgen Hcall.
  destruct (Reachable_wf _ _ _ Hreach) as (Hwf & Hdc & Hwk). subst s.
  destruct (NextID_Done w id w' Hwf Hcall) as (_ & Hd & Hw & Hid & _ & Hwf').
  rewrite Hid, pack_split by apply Hwf'.
  destruct (shl_timestamp_multiple (Int64.sub (timestamp (gen w')) EPOCH)) as [h ->].
  rewrite GetDeviceID_fields by apply Hwf'.
  congruence.
Qed.

(** X11.  Two generators built with different (datacenter, worker) pairs never
    return the same identifier, whatever their clocks read. *)
Theorem NextID_distinct_nodes (dc1 wk1 dc2 wk2 : Z) (s1 s2 : SnowFlake)
        (w1 w2 : World) (id1 id2 : Z) (w1' w2' : World) :
  Reachable dc1 wk1 s1 ->
  Reachable dc2 wk2 s2 ->
  (dc1, wk1) <> (dc2, wk2) ->
  gen w1 = s1 ->
  gen w2 = s2 ->
  NextID w1 = Done id1 w1' ->
  NextID w2 = Done id2 w2' ->
  id1 <> id2.
Proof.
  intros H1 H2 Hne Hg1 Hg2 Hc1 Hc2 Heq.
  apply Hne.
  rewrite <- (NextID_device dc1 wk1 s1 w1 id1 w1' H1 Hg1 Hc1).
  rewrite <- (NextID_device dc2 wk2 s2 w2 id2 w2' H2 Hg2 Hc2).
  now rewrite Heq.
Qed.

Lemma NextID_distinct_nodes_witness : -5713527885000183808 <> 9223372036850581504.
Proof.
  apply (NextID_distinct_nodes 3 7 0 0 node late_node
           {| gen := node; clock := [tick 1]; slept := [] |}
           {| gen := late_node; clock := [late 1]; slept := [] |}
           (-5713527885000183808) 9223372036850581504
           {| gen := node1; clock := []; slept := [] |}
           {| gen := with_timestamp late_node 3776831255551; clock := []; slept := [] |}).
  - exact node_Reachable.
  - apply (Reachable_New 0 0 late_boot). exact late_node_New.
  - discriminate.
  - reflexivity.
  - reflexivity.
  - exact node_first_call.
  - vm_compute. reflexivity.
Defined.

Lemma session_distinct_witness : -5713527885000183808 <> -5713527885000183806.
Proof.
  assert (Hrun :
    session node [[tick 1]; [tick (-2); tick 1]; [tick (-20)]; [tick 1]]
    = [ Done (-5713527885000183808)
             {| gen := node1; clock := []; slept := [] |};
        Done (-5713527885000183807)
             {| gen := with_sequence node1 1; clock := []; slept := [6000000] |};
        Panic (rollback_message 21)
              {| gen := with_sequence node1 1; clock := []; slept := [] |};
        Done (-5713527885000183806)
             {| gen := with_sequence node1 2; clock := []; slept := [] |} ])
    by (vm_compute; reflexivity).
  apply (session_distinct 3 7 node
           [[tick 1]; [tick (-2); tick 1]; [tick (-20)]; [tick 1]]
           0%nat 3%nat
           (-5713527885000183808) {| gen := node1; clock := []; slept := [] |}
           (-5713527885000183806)
           {| gen := with_sequence node1 2; clock := []; slept := [] |}).
  - exact node_Reachable.
  - discriminate.
  - rewrite Hrun. reflexivity.
  - rewrite Hrun. reflexivity.
  - vm_compute. reflexivity.
  - vm_compute. reflexivity.
Defined.

Lemma NextID_before_EPOCH_witness : -5713527885000183808 < 0.
Proof.
  apply (NextID_before_EPOCH 3 7 node
           {| gen := node; clock := [tick 1]; slept := [] |}
           (-5713527885000183808)
           {| gen := node1; clock := []; slept := [] |}).
  - exact node_Reachable.
  - reflexivity.
  - exact node_first_call.
  - vm_compute. reflexivity.
Defined.

Lemma NextID_in_field_witness : 0 <= 9223372036850581504 < 2 ^ 63.
Proof.
  apply (NextID_in_field 0 0 late_node
           {| gen := late_node; clock := [late 1]; slept := [] |}
           9223372036850581504
           {| gen := with_timestamp late_node 3776831255551; clock := []; slept := [] |}).
  - apply (Reachable_New 0 0 late_boot). exact late_node_New.
  - reflexivity.
  - vm_compute. reflexivity.
  - vm_compute. split; [ discriminate | reflexivity ].
Defined.

(** ** More on construction and packing *)

(** X15.  [New] checks the datacenter id first: when it is out of range the
    error names [datacenterId], whether or not the worker id is valid too;
    the worker id is named only when the datacenter id is in range. *)
Theorem New_checks_datacenter_first (dc wk : Z) (now : time.Time) :
  (dc < 0 \/ 31 < dc ->
   New dc wk now = (None, Some "datacenterId must be between 0 and 30"%string))
  /\ (0 <= dc <= 31 -> wk < 0 \/ 31 < wk ->
      New dc wk now = (None, Some "machineId must be between 0 and 30"%string)).
Proof.
  unfold New. change MAX_DATACENTER_ID with 31. change MAX_WORKER_ID with 31.
  split.
  - intros Hout.
    destruct (Z.ltb_spec dc 0); cbn [orb];
      [ | destruct (Z.gtb_spec dc 31); [ | lia ] ];
      (f_equal; f_equal; vm_compute; reflexivity).
  - intros Hin Hout.
    destruct (Z.ltb_spec dc 0); [ lia | ].
    destruct (Z.gtb_spec dc 31); [ lia | ]. cbn [orb].
    destruct (Z.ltb_spec wk 0); cbn [orb];
      [ | destruct (Z.gtb_spec wk 31); [ | lia ] ];
      (f_equal; f_equal; vm_compute; reflexivity).
Qed.

Lemma New_checks_datacenter_first_witness :
  New 32 99 boot = (None, Some "datacenterId must be between 0 and 30"%string)
  /\ New 31 (-1) boot = (None, Some "machineId must be between 0 and 30"%string).
Proof.
  destruct (New_checks_datacenter_first 32 99 boot) as (Hd & _).
  destruct (New_checks_datacenter_first 31 (-1) boot) as (_ & Hw).
  split.
  - apply Hd. lia.
  - apply Hw; lia.
Defined.

(** X16.  The packing loses nothing while [now - EPOCH] fits the 41-bit field:
    two packings that agree come from the same timestamp, datacenter id,
    worker id and sequence number. *)
Theorem pack_injective (a b : SnowFlake) (na nb : Z) :
  wf a -> wf b ->
  - 2 ^ 41 <= na - EPOCH < 2 ^ 41 ->
  - 2 ^ 41 <= nb - EPOCH < 2 ^ 41 ->
  pack a na = pack b nb ->
  na = nb
  /\ datacenterId a = datacenterId b
  /\ workerId a = workerId b
  /\ sequence a = sequence b.
Proof.
  intros [Hda Hwa Hsa _] [Hdb Hwb Hsb _] Ra Rb.
  rewrite !pack_exact by assumption.
  unfold EPOCH in *. intros Heq.
  assert (na = nb) by lia. subst nb.
  assert (datacenterId a = datacenterId b) by lia.
  assert (workerId a = workerId b) by lia.
  conjs; try reflexivity; try assumption. lia.
Qed.

Lemma pack_injective_witness :
  215596800001 = 215596800001
  /\ datacenterId node1 = datacenterId (with_sequence node1 0)
  /\ workerId node1 = workerId (with_sequence node1 0)
  /\ sequence node1 = sequence (with_sequence node1 0).
Proof.
  apply (pack_injective node1 (with_sequence node1 0) 215596800001 215596800001).
  - constructor; vm_compute; split; discriminate.
  - constructor; vm_compute; split; discriminate.
  - vm_compute. split; [ discriminate | reflexivity ].
  - vm_compute. split; [ discriminate | reflexivity ].
  - vm_compute. reflexivity.
Defined.

Lemma NextID_returns_witness :
  exists id s',
    NextID {| gen := node1; clock := [tick 2]; slept := [] |}
    = Done id {| gen := s'; clock := []; slept := [] |}
    /\ timestamp s' = millis node1 (tick 2).
Proof.
  apply (NextID_returns {| gen := node1; clock := [tick 2]; slept := [] |} (tick 2) []).
  - reflexivity.
  - vm_compute. discriminate.
  - left. vm_compute. reflexivity.
Defined.
